(** * A shallow embedding of [install_stitchkit.py] (StitchKit installer)

    The installer is a single class, [StitchKitInstaller], whose methods read
    and mutate the user's home directory, prompt on the terminal and start
    subprocesses.  We model it as a state-and-exception monad over a [world]
    holding the directories of the home directory, the shell and its
    startup files, the scripted terminal, the installer's two flags
    ([env_restored], [env_has_credentials]) and the outcomes of the external
    collaborators (pip, the editor, the launched application). *)

From Stdlib Require Import String Ascii List Bool Arith Lia.
From Stdlib Require Import NArith Sorting.Sorted.
Import ListNotations.
Open Scope string_scope.

(** ** Python strings

    Strings are byte strings ([String.string]); text is UTF-8, so comparing
    bytes lexicographically is comparing code points, as Python's [<] on
    [str] does. *)

Definition q : string := String (ascii_of_nat 34) EmptyString.
Definition nl : string := String (ascii_of_nat 10) EmptyString.

(** [sub in s]: Python's substring test. *)
Fixpoint contains (sub s : string) : bool :=
  prefix sub s ||
  match s with
  | EmptyString => false
  | String _ s' => contains sub s'
  end.

(** [str.lower] on one character.  Only the ASCII capitals change here; no
    other code point lowercases to an ASCII letter, so for the tests
    [response == 'y'] of the source this agrees with Python. *)
Definition lower_char (c : ascii) : ascii :=
  let n := nat_of_ascii c in
  if (65 <=? n)%nat && (n <=? 90)%nat then ascii_of_nat (n + 32) else c.

Fixpoint lower (s : string) : string :=
  match s with
  | EmptyString => EmptyString
  | String c s' => String (lower_char c) (lower s')
  end.

(** A triple-quoted literal: every line followed by a newline. *)
Fixpoint lines_to_text (ls : list string) : string :=
  match ls with
  | [] => EmptyString
  | l :: r => l ++ nl ++ lines_to_text r
  end.

(** The literal [env_content] of [create_basic_env] (lines 181-290). *)
Definition env_content : string := lines_to_text [
    "################################################################################";
    "#                                                                              #";
    "#                    🎓 StitchKit Environment Configuration 🎓                 #";
    "#                        University of St. Thomas                             #";
    "#                                                                              #";
    "################################################################################";
    EmptyString;
    "#===============================================================================";
    "# 🚀 APPLICATION SETTINGS";
    "#===============================================================================";
    EmptyString;
    "# Application name and branding";
    "STITCHKIT_APP_NAME=StitchKit";
    "STITCHKIT_APP_FULL_NAME=St. Thomas Instructional Technology Command Hub Kit";
    EmptyString;
    "# Logging level: DEBUG, INFO, WARNING, ERROR, CRITICAL";
    "STITCHKIT_LOG_LEVEL=INFO";
    EmptyString;
    "#===============================================================================";
    "# 🎨 CANVAS CONFIGURATION - MAIN";
    "#===============================================================================";
    EmptyString;
    "# [REQUIRED] Your Canvas API Key";
    "# 📝 How to get your Canvas API key:";
    "#    1. Log into Canvas (https://stthomas.instructure.com)";
    "#    2. Click on " ++ q ++ "Account" ++ q ++ " in the left sidebar";
    "#    3. Click on " ++ q ++ "Settings" ++ q;
    "#    4. Scroll down to " ++ q ++ "Approved Integrations" ++ q;
    "#    5. Click " ++ q ++ "+ New Access Token" ++ q;
    "#    6. Enter a purpose (e.g., " ++ q ++ "StitchKit Admin Tools" ++ q ++ ")";
    "#    7. Leave expiration blank for permanent token (or set a date)";
    "#    8. Click " ++ q ++ "Generate Token" ++ q;
    "#    9. ⚠️ COPY THE TOKEN NOW - you won't see it again!";
    "#    10. Paste it below";
    "CANVAS_API_KEY=your_canvas_api_key_here";
    EmptyString;
    "# Your Canvas instance URL";
    "CANVAS_BASE_URL=https://stthomas.instructure.com";
    EmptyString;
    "# Your Canvas Account ID (usually 1 for main account)";
    "CANVAS_ACCOUNT_ID=1";
    EmptyString;
    "#===============================================================================";
    "# 🔄 CANVAS MULTI-ENVIRONMENT SETUP (Future Feature)";
    "#===============================================================================";
    "# Note: These are placeholders for future multi-environment support";
    "# They are NOT currently active in StitchKit";
    EmptyString;
    "# Production Environment (future feature)";
    "CANVAS_PROD_API_KEY=your_production_api_key_here";
    "CANVAS_PROD_BASE_URL=https://stthomas.instructure.com";
    "CANVAS_PROD_ACCOUNT_ID=1";
    EmptyString;
    "# Test Environment (future feature)";
    "CANVAS_TEST_API_KEY=your_test_api_key_here";
    "CANVAS_TEST_BASE_URL=https://stthomas.test.instructure.com";
    "CANVAS_TEST_ACCOUNT_ID=1";
    EmptyString;
    "# Default environment selection (future feature)";
    "CANVAS_DEFAULT_ENV=test";
    EmptyString;
    "# Canvas integration toggle";
    "CANVAS_ENABLED=true";
    EmptyString;
    "#===============================================================================";
    "# 📚 CANVAS CATALOG INTEGRATION";
    "#===============================================================================";
    EmptyString;
    "# [OPTIONAL] Canvas Catalog API Token";
    "# 📝 How to get your Canvas Catalog token:";
    "#    1. Log into Canvas Catalog admin";
    "#    2. Navigate to Admin → Settings → API Access";
    "#    3. Generate a new API token";
    "#    4. Copy and paste it here";
    "CANVAS_CAT_API_TOKEN=your_canvas_catalog_token_here";
    EmptyString;
    "#===============================================================================";
    "# 🛡️ HONORLOCK INTEGRATION";
    "#===============================================================================";
    EmptyString;
    "# [REQUIRED] Honorlock Consumer Key";
    "# 📝 How to get Honorlock credentials:";
    "#    1. Contact your Honorlock representative";
    "#    2. Request LTI integration credentials for your institution";
    "#    3. They will provide the consumer key and shared secret";
    "HONORLOCK_CONSUMER_KEY=your_honorlock_consumer_key_here";
    EmptyString;
    "# [REQUIRED] Honorlock Shared Secret";
    "# ⚠️ Keep this secret! Do not share or commit to version control";
    "HONORLOCK_SHARED_SECRET=your_honorlock_shared_secret_here";
    EmptyString;
    "# Honorlock Configuration URL (typically the same for all institutions)";
    "HONORLOCK_CONFIG_URL=https://app.honorlock.com/lti_config";
    EmptyString;
    "#===============================================================================";
    "# 📝 IMPORTANT NOTES";
    "#===============================================================================";
    "# ";
    "# ⚠️ REQUIRED FIELDS:";
    "#    • CANVAS_API_KEY - Must be set for StitchKit to function";
    "#    • HONORLOCK_CONSUMER_KEY - Required for Honorlock integration";
    "#    • HONORLOCK_SHARED_SECRET - Required for Honorlock integration";
    "#";
    "# 💡 SECURITY REMINDER:";
    "#    • Never commit this .env file to Git";
    "#    • Keep your API keys secret and secure";
    "#    • This file contains sensitive credentials";
    "#";
    "#==============================================================================="
  ].

(** ** [check_env_credentials], the part after the file has been read
    (lines 133-139). *)

Definition placeholder_canvas := "your_canvas_api_key_here".
Definition placeholder_consumer := "your_honorlock_consumer_key_here".
Definition placeholder_secret := "your_honorlock_shared_secret_here".

Definition credentials_in (content : string) : bool :=
  let has_canvas := contains "CANVAS_API_KEY=" content
                    && negb (contains placeholder_canvas content) in
  let has_honorlock_key := contains "HONORLOCK_CONSUMER_KEY=" content
                    && negb (contains placeholder_consumer content) in
  let has_honorlock_secret := contains "HONORLOCK_SHARED_SECRET=" content
                    && negb (contains placeholder_secret content) in
  has_canvas && has_honorlock_key && has_honorlock_secret.

(** ** The world *)

(** A directory entry of the home directory: its [.env] file (content, if
    any), whether it holds a [requirements.txt], and the names of its other
    entries (only [shutil.move] into an existing directory looks at them). *)
Record dir := mkdir {
  d_env : option string;
  d_requirements : bool;
  d_children : list string }.

Definition empty_dir : dir := mkdir None false [].

(** What the operating system and the external programs do, fixed for a
    run: the collaborators the installer only calls. *)
Record os := mkos {
  os_version : nat * nat;      (* sys.version_info[:2] *)
  os_clock : string;           (* datetime.now().strftime("%Y%m%d-%H%M%S") *)
  os_rename_ok : bool;         (* renaming an entry of the home directory works *)
  os_copy_ok : bool;           (* shutil.copy2 succeeds *)
  os_write_ok : bool;          (* open(path, 'w') succeeds *)
  os_read_ok : bool;           (* open(path, 'r').read() succeeds *)
  os_pip_ok : bool;            (* pip install -r requirements.txt returns 0 *)
  os_nano : bool;              (* nano is on the PATH *)
  os_vi : bool;                (* vi is on the PATH *)
  os_edit : option string;     (* what the user saves in the editor, if anything *)
  os_launch_ok : bool }.       (* os.chdir + subprocess.call(main.py) raise nothing *)

(** Observable events, oldest first. *)
Inductive event :=
| Prompt (p : string)   (* input(p) was called *)
| Launched              (* main.py was started and waited for *)
| LaunchFailed          (* "Could not launch StitchKit" *)
| ManualSteps.          (* show_manual_next_steps() *)

(** What one call of [input()] gets from the terminal. *)
Inductive response := Line (s : string) | Interrupt.

(** ** [create_alias] and the shell startup files

    The method itself (lines 311-341), over the plain files of the home
    directory: [~/.zshrc], [~/.bashrc], [~/.profile] and the like. *)

Module Alias.

(** Files of the home directory, by name, with their content. *)
Definition files := list (string * string).

Fixpoint flookup (n : string) (fs : files) : option string :=
  match fs with
  | [] => None
  | (m, c) :: r => if String.eqb n m then Some c else flookup n r
  end.

(** Replace the content of [n], or add [n] at the end of the listing. *)
Fixpoint fset (n c : string) (fs : files) : files :=
  match fs with
  | [] => [(n, c)]
  | (m, c') :: r => if String.eqb n m then (m, c) :: r else (m, c') :: fset n c r
  end.

(** What the method reports: the alias was there, was added to [rc], or an
    exception was caught. *)
Inductive outcome := AliasExists | AliasCreated (rc : string) | AliasFailed.

(** [os.environ.get('SHELL', '/bin/bash')] *)
Definition shell_of (shell_var : option string) : string :=
  match shell_var with Some s => s | None => "/bin/bash" end.

(** The startup file picked for a shell. *)
Definition rc_file (shell : string) : string :=
  if contains "zsh" shell then ".zshrc"
  else if contains "bash" shell then ".bashrc"
  else ".profile".

Definition alias_line : string :=
  "alias stitchkit=" ++ q ++ "cd ~/StitchKit && python3 main.py" ++ q.

(** [f'\n# StitchKit alias\n{alias_line}\n'] *)
Definition alias_block : string :=
  nl ++ "# StitchKit alias" ++ nl ++ alias_line ++ nl.

(** [create_alias] (lines 311-341).  [read_ok] says whether reading the
    existing startup file succeeds, [append_ok] whether opening it for
    appending succeeds; either failure is caught by [except Exception] and
    leaves the files as they were. *)
Definition create_alias (shell_var : option string) (read_ok append_ok : bool)
    (fs : files) : files * outcome :=
  let rc := rc_file (shell_of shell_var) in
  let append old :=
    if append_ok then (fset rc (old ++ alias_block) fs, AliasCreated rc)
    else (fs, AliasFailed) in
  match flookup rc fs with
  | Some content =>
      if read_ok then
        if contains "alias stitchkit=" content then (fs, AliasExists)
        else append content
      else (fs, AliasFailed)
  | None => append EmptyString
  end.

End Alias.

(** The shell environment [create_alias] works in: [$SHELL], whether
    reading and appending to the startup file succeed, and the plain files
    of the home directory.  The directories of the home directory are
    [w_home] below; nothing else of the installer reads these files. *)
Record shell := mkshell {
  sh_var : option string;         (* os.environ.get('SHELL') *)
  sh_read_ok : bool;              (* rc_file.read_text() succeeds *)
  sh_append_ok : bool;            (* open(rc_file, 'a') and write succeed *)
  sh_files : Alias.files }.

Record world := mkworld {
  w_home : list (string * dir);   (* Path.home(), in the order the OS lists it *)
  w_inputs : list response;       (* the terminal, still to be read *)
  w_trace : list event;
  w_env_restored : bool;          (* self.env_restored *)
  w_env_has_credentials : bool;   (* self.env_has_credentials *)
  w_shell : shell;                (* the shell and its startup files *)
  w_os : os }.

Definition set_home h w :=
  mkworld h (w_inputs w) (w_trace w) (w_env_restored w)
    (w_env_has_credentials w) (w_shell w) (w_os w).
Definition set_inputs i w :=
  mkworld (w_home w) i (w_trace w) (w_env_restored w)
    (w_env_has_credentials w) (w_shell w) (w_os w).
Definition add_event e w :=
  mkworld (w_home w) (w_inputs w) (w_trace w ++ [e])%list (w_env_restored w)
    (w_env_has_credentials w) (w_shell w) (w_os w).
Definition set_restored b w :=
  mkworld (w_home w) (w_inputs w) (w_trace w) b
    (w_env_has_credentials w) (w_shell w) (w_os w).
Definition set_has_credentials b w :=
  mkworld (w_home w) (w_inputs w) (w_trace w) (w_env_restored w)
    b (w_shell w) (w_os w).
Definition set_files fs w :=
  let sh := w_shell w in
  mkworld (w_home w) (w_inputs w) (w_trace w) (w_env_restored w)
    (w_env_has_credentials w) (mkshell (sh_var sh) (sh_read_ok sh) (sh_append_ok sh) fs)
    (w_os w).

(** Entries of the home directory, by name. *)
Fixpoint lookup (n : string) (h : list (string * dir)) : option dir :=
  match h with
  | [] => None
  | (m, d) :: r => if String.eqb n m then Some d else lookup n r
  end.

Definition remove_entry (n : string) (h : list (string * dir)) :=
  filter (fun e => negb (String.eqb n (fst e))) h.

(** Replace the entry [n], or add it at the end of the listing. *)
Fixpoint set_entry (n : string) (d : dir) (h : list (string * dir)) :=
  match h with
  | [] => [(n, d)]
  | (m, d') :: r => if String.eqb n m then (m, d) :: r else (m, d') :: set_entry n d r
  end.

(** ** Python's exceptions, and a state-and-exception monad

    A raised exception keeps the effects done before it, as in Python. *)

Inductive exn := KeyboardInterrupt | EOFError | OSError.

(** [except Exception] catches everything but [KeyboardInterrupt], which is
    a [BaseException]. *)
Definition is_Exception (e : exn) : bool :=
  match e with KeyboardInterrupt => false | _ => true end.

Inductive result (A : Type) := Ok (a : A) | Exc (e : exn).
Arguments Ok {A} a.
Arguments Exc {A} e.

Definition M (A : Type) := world -> result A * world.

Definition ret {A} (a : A) : M A := fun w => (Ok a, w).
Definition bind {A B} (m : M A) (k : A -> M B) : M B := fun w =>
  match m w with
  | (Ok a, w') => k a w'
  | (Exc e, w') => (Exc e, w')
  end.
Definition raise {A} (e : exn) : M A := fun w => (Exc e, w).
Definition get : M world := fun w => (Ok w, w).
Definition modify (f : world -> world) : M unit := fun w => (Ok tt, f w).
Definition emit (e : event) : M unit := modify (add_event e).

(** [try: m  except Exception: h] *)
Definition try_except {A} (m : M A) (h : M A) : M A := fun w =>
  match m w with
  | (Exc e, w') => if is_Exception e then h w' else (Exc e, w')
  | r => r
  end.

Notation "x <- m ;; k" := (bind m (fun x => k))
  (at level 61, m at next level, right associativity).
Notation "m ;; k" := (bind m (fun _ => k))
  (at level 61, right associativity).

(** [input(p)]: shows the prompt, reads a line; at end of file Python raises
    [EOFError], on Ctrl-C [KeyboardInterrupt]. *)
Definition input (p : string) : M string := fun w =>
  let w := add_event (Prompt p) w in
  match w_inputs w with
  | Line s :: r => (Ok s, set_inputs r w)
  | Interrupt :: r => (Exc KeyboardInterrupt, set_inputs r w)
  | [] => (Exc EOFError, w)
  end.

(** ** The installer's methods *)

(** [self.install_dir = Path.home() / "StitchKit"] *)
Definition install_dir : string := "StitchKit".

Definition install_exists (w : world) : bool :=
  match lookup install_dir (w_home w) with Some _ => true | None => false end.

(** The content of [install_dir / ".env"], when that file exists. *)
Definition env_file (w : world) : option string :=
  match lookup install_dir (w_home w) with
  | Some d => d_env d
  | None => None
  end.

Definition env_exists (w : world) : bool :=
  match env_file w with Some _ => true | None => false end.

(** [sys.version_info < (3, 7)]: tuples compare lexicographically, and a
    longer tuple with an equal prefix is the greater one. *)
Definition version_below (v : nat * nat) : bool :=
  let '(major, minor) := v in
  (major <? 3)%nat || ((major =? 3)%nat && (minor <? 7)%nat).

Definition check_python_version : M bool :=
  w <- get ;; ret (negb (version_below (os_version (w_os w)))).

(** [check_env_credentials] (lines 123-141) when [env_file.exists()] gets
    an answer: a failing read is caught and gives [False].  It changes
    nothing, so it is a function of the world.  The steps of [run] below use
    it in this form: they take the existence tests to get an answer. *)
Definition check_env_credentials (w : world) : bool :=
  match env_file w with
  | None => false
  | Some content => if os_read_ok (w_os w) then credentials_in content else false
  end.

(** The whole method, existence test included.  [Path.exists] answers
    [False] on ENOENT, ENOTDIR, EBADF and ELOOP and re-raises any other
    [OSError] of its [stat] (a [PermissionError] when [~/StitchKit] cannot be
    searched); [stat_ok] says whether the [stat] of [~/StitchKit/.env] ends
    in an answer.  That test is outside the [try], so its error escapes. *)
Definition check_env_credentials_m (stat_ok : bool) : M bool := fun w =>
  if negb stat_ok then (Exc OSError, w) else
  match env_file w with
  | None => (Ok false, w)
  | Some content =>
      if os_read_ok (w_os w) then (Ok (credentials_in content), w) else (Ok false, w)
  end.

(** [shutil.move(src, dst)] for two entries of the home directory.  If [dst]
    is an existing directory, [src] is moved inside it, and [shutil.Error]
    (an [OSError]) is raised if [dst/src] is taken.  A missing [src], or a
    rename the OS refuses, raises. *)
Definition shutil_move (src dst : string) : M unit := fun w =>
  let h := w_home w in
  match lookup src h with
  | None => (Exc OSError, w)
  | Some s =>
      match lookup dst h with
      | Some d =>
          if existsb (String.eqb src) (d_children d) then (Exc OSError, w)
          else if os_rename_ok (w_os w) then
            (Ok tt, set_home (set_entry dst (mkdir (d_env d) (d_requirements d)
                                               (d_children d ++ [src])%list)
                               (remove_entry src h)) w)
          else (Exc OSError, w)
      | None =>
          if os_rename_ok (w_os w) then
            (Ok tt, set_home (set_entry dst s (remove_entry src h)) w)
          else (Exc OSError, w)
      end
  end.

Definition backup_prefix : string := "StitchKit.backup-".

(** [backup_existing] (lines 80-92). *)
Definition backup_existing : M (option string) :=
  w <- get ;;
  let backup_dir := backup_prefix ++ os_clock (w_os w) in
  try_except
    (shutil_move install_dir backup_dir ;; ret (Some backup_dir))
    (ret None).

(** [Path.home().glob("StitchKit.backup-*")]: the names of the home
    directory's entries that start with the prefix. *)
Definition glob_backups (h : list (string * dir)) : list string :=
  filter (prefix backup_prefix) (map fst h).

(** [sorted]: Python's sort of [Path]s with one parent orders them by name. *)
Fixpoint insert_sorted (x : string) (l : list string) : list string :=
  match l with
  | [] => [x]
  | y :: r => if String.leb x y then x :: y :: r else y :: insert_sorted x r
  end.

Definition sort (l : list string) : list string := fold_right insert_sorted [] l.

(** The backup-search part of [restore_env_from_backup] (lines 96-103):
    [backups[-1]] when [backups] is not empty. *)
Definition latest_backup (h : list (string * dir)) : option string :=
  match sort (glob_backups h) with
  | [] => None
  | b :: r => Some (last (b :: r) b)
  end.

(** [self.install_dir.mkdir(parents=True, exist_ok=True)] *)
Definition mkdir_install : M unit := fun w =>
  if install_exists w then (Ok tt, w)
  else (Ok tt, set_home (set_entry install_dir empty_dir (w_home w)) w).

(** [shutil.copy2(src / ".env", install_dir / ".env")] *)
Definition copy_env (src : string) : M unit := fun w =>
  match lookup src (w_home w), lookup install_dir (w_home w) with
  | Some s, Some d =>
      match d_env s with
      | Some c =>
          if os_copy_ok (w_os w) then
            (Ok tt, set_home (set_entry install_dir
                               (mkdir (Some c) (d_requirements d) (d_children d))
                               (w_home w)) w)
          else (Exc OSError, w)
      | None => (Exc OSError, w)
      end
  | _, _ => (Exc OSError, w)
  end.

Definition restore_prompt : string :=
  "Restore your API credentials from backup? (y/n): ".

(** [restore_env_from_backup] (lines 94-121). *)
Definition restore_env_from_backup : M bool :=
  w <- get ;;
  match latest_backup (w_home w) with
  | None => ret false
  | Some latest =>
      match option_map d_env (lookup latest (w_home w)) with
      | Some (Some _) =>
          response <- input restore_prompt ;;
          if String.eqb (lower response) "y" then
            mkdir_install ;;
            copy_env latest ;;
            modify (set_restored true) ;;
            w <- get ;;
            modify (set_has_credentials (check_env_credentials w)) ;;
            ret true
          else ret false
      | _ => ret false
      end
  end.

Definition backup_prompt : string := nl ++ "Backup existing installation? (y/n): ".

(** [check_existing_installation] (lines 61-78). *)
Definition check_existing_installation : M bool :=
  w <- get ;;
  if install_exists w then
    response <- input backup_prompt ;;
    (if String.eqb (lower response) "y" then
       backup_dir <- backup_existing ;;
       match backup_dir with
       | Some _ => restore_env_from_backup ;; ret tt
       | None => ret tt
       end
     else ret tt) ;;
    ret true
  else ret false.

(** [install_dependencies] (lines 143-177): [True] without a
    [requirements.txt]; otherwise pip's result, its failures caught. *)
Definition install_dependencies : M bool :=
  w <- get ;;
  match lookup install_dir (w_home w) with
  | Some d => if d_requirements d then ret (os_pip_ok (w_os w)) else ret true
  | None => ret true
  end.

(** [install_dir / ".env"] written with [content] by [open(.., 'w')]. *)
Definition write_env (content : string) : M unit := fun w =>
  match lookup install_dir (w_home w) with
  | Some d =>
      if os_write_ok (w_os w) then
        (Ok tt, set_home (set_entry install_dir
                           (mkdir (Some content) (d_requirements d) (d_children d))
                           (w_home w)) w)
      else (Exc OSError, w)
  | None => (Exc OSError, w)
  end.

(** [create_basic_env] (lines 179-295); nothing catches its errors. *)
Definition create_basic_env : M unit := write_env env_content.

(** [setup_environment] (lines 297-309). *)
Definition setup_environment : M bool :=
  w <- get ;;
  if w_env_restored w && env_exists w then ret true
  else
    (if negb (env_exists w) then create_basic_env else ret tt) ;;
    ret true.

(** [create_alias] (lines 311-341) run on the world's startup files; the
    method catches every error itself, and its report is only printed. *)
Definition alias_update (w : world) : world :=
  let sh := w_shell w in
  set_files (fst (Alias.create_alias (sh_var sh) (sh_read_ok sh) (sh_append_ok sh)
                    (sh_files sh))) w.

Definition create_alias : M unit := modify alias_update.

Definition show_manual_next_steps : M unit := emit ManualSteps.

(** The editor writes what the user saved, if the user saved. *)
Definition run_editor : M unit := fun w =>
  match os_edit (w_os w) with
  | Some c =>
      match lookup install_dir (w_home w) with
      | Some d =>
          (Ok tt, set_home (set_entry install_dir
                             (mkdir (Some c) (d_requirements d) (d_children d))
                             (w_home w)) w)
      | None => (Ok tt, w)
      end
  | None => (Ok tt, w)
  end.

(** [guide_env_setup] (lines 343-381): nano, else vi, else give up. *)
Definition guide_env_setup : M unit :=
  _ <- input "Press Enter to open the editor..." ;;
  w <- get ;;
  if os_nano (w_os w) || os_vi (w_os w) then
    run_editor ;;
    w <- get ;;
    modify (set_has_credentials (check_env_credentials w))
  else ret tt.

(** [os.chdir(install_dir); subprocess.call([python, 'main.py'])], with
    its [except Exception] branch (lines 443-448 and 463-468). *)
Definition launch : M unit :=
  w <- get ;;
  if os_launch_ok (w_os w) then emit Launched
  else emit LaunchFailed ;; show_manual_next_steps.

Definition configure_prompt : string :=
  nl ++ "Would you like to configure them now? (y/n): ".

(** Step 7 of [run] (lines 427-475): the launch-or-guide decision. *)
Definition final_steps : M bool :=
  w <- get ;;
  (if w_env_has_credentials w then ret tt
   else modify (set_has_credentials (check_env_credentials w))) ;;
  w <- get ;;
  if w_env_has_credentials w then
    launch ;; ret true
  else
    response <- input configure_prompt ;;
    if String.eqb (lower response) "y" then
      guide_env_setup ;;
      w <- get ;;
      (if w_env_has_credentials w then launch else show_manual_next_steps) ;;
      ret true
    else
      show_manual_next_steps ;; ret true.

(** [run] (lines 396-475). *)
Definition run : M bool :=
  ok <- check_python_version ;;
  if negb ok then ret false else
  _ <- check_existing_installation ;;
  w <- get ;;
  (if install_exists w then ret tt else mkdir_install) ;;
  _ <- install_dependencies ;;
  ok <- setup_environment ;;
  if negb ok then ret false else
  create_alias ;;
  final_steps.

(** [main] (lines 477-489): [sys.exit(0 if success else 1)], and [1] for
    [KeyboardInterrupt] and for any other exception.  [sys.exit] raises
    [SystemExit], which neither handler catches. *)
Definition main_exit_code (w : world) : nat :=
  match fst (run w) with
  | Ok true => 0
  | Ok false => 1
  | Exc KeyboardInterrupt => 1
  | Exc _ => 1
  end.

(** ** Sample inputs *)

(** A configuration with the three required values filled in. *)
Definition filled_env : string :=
  lines_to_text ["CANVAS_API_KEY=7~abc"; "HONORLOCK_CONSUMER_KEY=uni-key";
                 "HONORLOCK_SHARED_SECRET=s3cret"].

(** The three required names with empty values. *)
Definition empty_values_env : string :=
  lines_to_text ["CANVAS_API_KEY="; "HONORLOCK_CONSUMER_KEY=";
                 "HONORLOCK_SHARED_SECRET="].

(** Real values, and the Canvas placeholder left in a comment. *)
Definition commented_placeholder_env : string :=
  lines_to_text ["# was: CANVAS_API_KEY=your_canvas_api_key_here";
                 "CANVAS_API_KEY=7~abc"; "HONORLOCK_CONSUMER_KEY=uni-key";
                 "HONORLOCK_SHARED_SECRET=s3cret"].

Definition sample_os : os :=
  mkos (3, 11) "20260315-093000" true true true true true true true None true.

(** A bash user whose home holds no startup file yet. *)
Definition sample_shell : shell := mkshell (Some "/bin/bash") true true [].

Definition sample_world (home : list (string * dir)) (inputs : list response) : world :=
  mkworld home inputs [] false false sample_shell sample_os.

Definition installed (env : option string) : string * dir :=
  (install_dir, mkdir env false []).


(** * Lemmas *)



(** ** The order of [sorted] *)

Lemma str_leb_refl (s : string) : String.leb s s = true.
Proof.
  unfold String.leb. induction s as [|c s IH]; simpl; [reflexivity|].
  unfold Ascii.compare. rewrite N.compare_refl. exact IH.
Qed.

Ltac ncmp E :=
  first [ rewrite N.compare_eq_iff in E | rewrite N.compare_lt_iff in E
        | rewrite N.compare_gt_iff in E ].

Lemma str_compare_not_gt_trans (a b c : string) :
  String.compare a b <> Gt -> String.compare b c <> Gt -> String.compare a c <> Gt.
Proof.
  revert b c. induction a as [|x a IH]; intros [|y b] [|z c]; simpl;
    try congruence.
  unfold Ascii.compare.
  destruct (N.compare (N_of_ascii x) (N_of_ascii y)) eqn:E1;
  destruct (N.compare (N_of_ascii y) (N_of_ascii z)) eqn:E2;
  ncmp E1; ncmp E2; intros H1 H2; try congruence;
  destruct (N.compare (N_of_ascii x) (N_of_ascii z)) eqn:E3; ncmp E3;
  try congruence.
  all: first [ eapply IH; eassumption | intros ?; lia ].
Qed.

Lemma str_leb_trans (a b c : string) :
  String.leb a b = true -> String.leb b c = true -> String.leb a c = true.
Proof.
  unfold String.leb.
  destruct (String.compare a b) eqn:E1; try discriminate;
  destruct (String.compare b c) eqn:E2; try discriminate;
  destruct (String.compare a c) eqn:E3; try reflexivity;
  exfalso; eapply (str_compare_not_gt_trans a b c); congruence.
Qed.

Lemma str_leb_false (a b : string) : String.leb a b = false -> String.leb b a = true.
Proof.
  intros H. destruct (String.leb_total a b) as [H'|H']; congruence.
Qed.

(** ** [sort] *)

Lemma insert_sorted_In (x y : string) (l : list string) :
  In x (insert_sorted y l) <-> x = y \/ In x l.
Proof.
  induction l as [|z l IH]; simpl.
  - intuition.
  - destruct (String.leb y z); simpl; [intuition|].
    rewrite IH. intuition.
Qed.

Lemma sort_In (x : string) (l : list string) : In x (sort l) <-> In x l.
Proof.
  induction l as [|y l IH]; simpl; [reflexivity|].
  rewrite insert_sorted_In, IH. intuition.
Qed.

Lemma insert_sorted_sorted (x : string) (l : list string) :
  StronglySorted (fun a b => String.leb a b = true) l ->
  StronglySorted (fun a b => String.leb a b = true) (insert_sorted x l).
Proof.
  induction l as [|y l IH]; simpl; intros Hs.
  - repeat constructor.
  - apply StronglySorted_inv in Hs as [Hl Hy].
    destruct (String.leb x y) eqn:Exy.
    + constructor; [constructor; assumption|].
      constructor; [assumption|].
      rewrite Forall_forall in *. intros z Hz. eapply str_leb_trans; eauto.
    + constructor; [apply IH; assumption|].
      rewrite Forall_forall in *. intros z Hz.
      apply insert_sorted_In in Hz as [->|Hz].
      * apply str_leb_false. assumption.
      * apply Hy. assumption.
Qed.

Lemma sort_sorted (l : list string) :
  StronglySorted (fun a b => String.leb a b = true) (sort l).
Proof.
  induction l as [|y l IH]; simpl; [constructor|].
  apply insert_sorted_sorted. exact IH.
Qed.

Lemma last_default_irrel (c d1 d2 : string) (r : list string) :
  last (c :: r) d1 = last (c :: r) d2.
Proof.
  revert c. induction r as [|e r IH]; intros c; [reflexivity|].
  exact (IH e).
Qed.

Lemma last_cons_default (b c : string) (r : list string) :
  last (b :: c :: r) b = last (c :: r) c.
Proof. exact (last_default_irrel c b c r). Qed.

Lemma last_In (b : string) (r : list string) : In (last (b :: r) b) (b :: r).
Proof.
  revert b. induction r as [|c r IH]; intros b; [left; reflexivity|].
  rewrite last_cons_default. right. apply IH.
Qed.

Lemma sorted_last_max (b : string) (r : list string) :
  StronglySorted (fun a b => String.leb a b = true) (b :: r) ->
  forall x, In x (b :: r) -> String.leb x (last (b :: r) b) = true.
Proof.
  revert b. induction r as [|c r IH]; intros b Hs x Hx.
  - destruct Hx as [<-|[]]. apply str_leb_refl.
  - rewrite last_cons_default.
    apply StronglySorted_inv in Hs as [Hs Hb].
    destruct Hx as [<-|Hx].
    + eapply str_leb_trans.
      * rewrite Forall_forall in Hb. apply Hb. left. reflexivity.
      * apply IH; [assumption|left; reflexivity].
    + apply IH; assumption.
Qed.

(** [latest_backup] is the greatest name the glob matches. *)
Lemma latest_backup_max (h : list (string * dir)) (m : string) :
  latest_backup h = Some m <->
  In m (glob_backups h) /\
  (forall n, In n (glob_backups h) -> String.leb n m = true).
Proof.
  unfold latest_backup.
  pose proof (sort_sorted (glob_backups h)) as Hs.
  destruct (sort (glob_backups h)) as [|b r] eqn:Es.
  - split; [discriminate|]. intros [Hm _].
    apply sort_In in Hm. rewrite Es in Hm. destruct Hm.
  - split.
    + intros [= <-]. split.
      * apply sort_In. rewrite Es. apply last_In.
      * intros n Hn. apply sort_In in Hn. rewrite Es in Hn.
        apply sorted_last_max; assumption.
    + intros [Hm Hmax]. f_equal. apply String.leb_antisym.
      * apply Hmax. apply sort_In. rewrite Es. apply last_In.
      * apply sorted_last_max; [assumption|].
        rewrite <- Es. apply sort_In. assumption.
Qed.

Lemma latest_backup_none (h : list (string * dir)) :
  latest_backup h = None <-> glob_backups h = [].
Proof.
  unfold latest_backup.
  destruct (glob_backups h) as [|g gs] eqn:Eg; simpl; [intuition|].
  split; [|discriminate].
  destruct (insert_sorted g (sort gs)) as [|b r] eqn:Es; [|discriminate].
  pose proof (insert_sorted_In g g (sort gs)) as H. rewrite Es in H.
  exfalso. apply H. left. reflexivity.
Qed.

(** ** The credential check *)

Lemma prefix_app (a b s : string) : prefix (a ++ b) s = true -> prefix a s = true.
Proof.
  revert s. induction a as [|c a IH]; intros s; [destruct s; reflexivity|].
  destruct s as [|d s]; simpl; [discriminate|].
  destruct (ascii_dec c d); [apply IH|discriminate].
Qed.

Lemma contains_app (a b s : string) : contains (a ++ b) s = true -> contains a s = true.
Proof.
  induction s as [|c s IH]; cbn [contains]; rewrite !orb_true_iff.
  - intros [H|H]; [left; eapply prefix_app; exact H|discriminate].
  - intros [H|H]; [left; eapply prefix_app; exact H | right; apply IH; exact H].
Qed.

Lemma check_env_credentials_content (w : world) (content : string) :
  env_file w = Some content -> os_read_ok (w_os w) = true ->
  check_env_credentials w = credentials_in content.
Proof.
  intros Hf Hr. unfold check_env_credentials. rewrite Hf, Hr. reflexivity.
Qed.

(** C1: for a configuration file that exists and can be read, the check is
    true exactly when each of the three required fields has its [NAME=]
    in the text and its own placeholder nowhere in it; the three per-field
    conditions are joined by AND. *)
Theorem check_env_credentials_iff (w : world) (content : string)
  (Hfile : env_file w = Some content) (Hread : os_read_ok (w_os w) = true) :
  check_env_credentials w = true <->
  (contains "CANVAS_API_KEY=" content = true /\
   contains placeholder_canvas content = false) /\
  (contains "HONORLOCK_CONSUMER_KEY=" content = true /\
   contains placeholder_consumer content = false) /\
  (contains "HONORLOCK_SHARED_SECRET=" content = true /\
   contains placeholder_secret content = false).
Proof.
  rewrite (check_env_credentials_content w content Hfile Hread).
  unfold credentials_in. rewrite !andb_true_iff, !negb_true_iff. tauto.
Qed.

Lemma check_env_credentials_iff_witness :
  check_env_credentials (sample_world [installed (Some filled_env)] []) = true <->
  (contains "CANVAS_API_KEY=" filled_env = true /\
   contains placeholder_canvas filled_env = false) /\
  (contains "HONORLOCK_CONSUMER_KEY=" filled_env = true /\
   contains placeholder_consumer filled_env = false) /\
  (contains "HONORLOCK_SHARED_SECRET=" filled_env = true /\
   contains placeholder_secret filled_env = false).
Proof. apply check_env_credentials_iff; reflexivity. Defined.

(** An unreadable [.env] in a [~/StitchKit] that cannot be searched. *)
Definition unsearchable_world : world :=
  mkworld [installed (Some filled_env)] [] [] false false sample_shell
    (mkos (3, 11) "20260315-093000" true true true false true true true None true).

(** C7 (counterexample): the [.env] exists and cannot be read, yet the
    check does not return [False]: the existence test raises first. *)
Lemma check_env_credentials_existence_test_raises :
  env_file unsearchable_world = Some filled_env /\
  os_read_ok (w_os unsearchable_world) = false /\
  check_env_credentials_m false unsearchable_world = (Exc OSError, unsearchable_world).
Proof. split; [|split]; reflexivity. Qed.

(** C7 (amended): once the existence test has an answer, a missing or
    unreadable [.env] gives [False], with no error and no change, just as
    an incomplete file does; the world-level check agrees.  When the test
    itself raises, the [OSError] leaves the method. *)
Theorem check_env_credentials_m_spec (stat_ok : bool) (w : world) :
  (stat_ok = true -> env_file w = None \/ os_read_ok (w_os w) = false ->
   check_env_credentials_m stat_ok w = (Ok false, w) /\ check_env_credentials w = false) /\
  (stat_ok = true -> check_env_credentials_m stat_ok w = (Ok (check_env_credentials w), w)) /\
  (stat_ok = false -> check_env_credentials_m stat_ok w = (Exc OSError, w)).
Proof.
  unfold check_env_credentials_m, check_env_credentials.
  split; [|split]; intros ->; cbn [negb]; [|destruct (env_file w); [destruct (os_read_ok (w_os w))|]; reflexivity|reflexivity].
  intros [Hf|Hr].
  - rewrite Hf. split; reflexivity.
  - destruct (env_file w); [rewrite Hr|]; split; reflexivity.
Qed.

Lemma check_env_credentials_m_spec_witness :
  (check_env_credentials_m true (sample_world [installed None] []) =
     (Ok false, sample_world [installed None] []) /\
   check_env_credentials (sample_world [installed None] []) = false) /\
  check_env_credentials_m true (sample_world [installed (Some filled_env)] []) =
    (Ok (check_env_credentials (sample_world [installed (Some filled_env)] [])),
     sample_world [installed (Some filled_env)] []) /\
  check_env_credentials_m false unsearchable_world = (Exc OSError, unsearchable_world).
Proof.
  destruct (check_env_credentials_m_spec true (sample_world [installed None] []))
    as [H1 _].
  destruct (check_env_credentials_m_spec true (sample_world [installed (Some filled_env)] []))
    as [_ [H2 _]].
  destruct (check_env_credentials_m_spec false unsearchable_world) as [_ [_ H3]].
  split; [apply H1; [reflexivity|left; reflexivity]|].
  split; [apply H2; reflexivity|apply H3; reflexivity].
Defined.

(** C10: the check only looks for substrings of the whole text.  (a) Three
    lines [NAME=] with empty values and no placeholder pass it; (b) a
    placeholder anywhere in the text, a comment included, fails it. *)
Theorem check_env_credentials_substring_only (w : world) (content : string)
  (Hfile : env_file w = Some content) (Hread : os_read_ok (w_os w) = true) :
  ((contains ("CANVAS_API_KEY=" ++ nl) content = true /\
    contains ("HONORLOCK_CONSUMER_KEY=" ++ nl) content = true /\
    contains ("HONORLOCK_SHARED_SECRET=" ++ nl) content = true /\
    contains placeholder_canvas content = false /\
    contains placeholder_consumer content = false /\
    contains placeholder_secret content = false) ->
   check_env_credentials w = true) /\
  ((contains placeholder_canvas content = true \/
    contains placeholder_consumer content = true \/
    contains placeholder_secret content = true) ->
   check_env_credentials w = false).
Proof.
  rewrite (check_env_credentials_content w content Hfile Hread).
  unfold credentials_in. split.
  - intros (H1 & H2 & H3 & P1 & P2 & P3).
    apply contains_app in H1, H2, H3.
    rewrite H1, H2, H3, P1, P2, P3. reflexivity.
  - intros [P|[P|P]]; rewrite P; simpl; rewrite ?andb_false_r; reflexivity.
Qed.

Lemma check_env_credentials_substring_only_witness :
  (check_env_credentials (sample_world [installed (Some empty_values_env)] []) = true /\
   check_env_credentials
     (sample_world [installed (Some commented_placeholder_env)] []) = false) /\
  ((contains ("CANVAS_API_KEY=" ++ nl) empty_values_env = true /\
    contains ("HONORLOCK_CONSUMER_KEY=" ++ nl) empty_values_env = true /\
    contains ("HONORLOCK_SHARED_SECRET=" ++ nl) empty_values_env = true /\
    contains placeholder_canvas empty_values_env = false /\
    contains placeholder_consumer empty_values_env = false /\
    contains placeholder_secret empty_values_env = false) ->
   check_env_credentials (sample_world [installed (Some empty_values_env)] []) = true).
Proof.
  split; [split|].
  - apply (check_env_credentials_substring_only
             (sample_world [installed (Some empty_values_env)] []) empty_values_env);
      [reflexivity|reflexivity|vm_compute; repeat split].
  - apply (check_env_credentials_substring_only
             (sample_world [installed (Some commented_placeholder_env)] [])
             commented_placeholder_env); [reflexivity|reflexivity|].
    left. vm_compute. reflexivity.
  - apply (check_env_credentials_substring_only
             (sample_world [installed (Some empty_values_env)] []) empty_values_env);
      reflexivity.
Defined.

(** ** The monad and the home directory *)

Lemma bind_get {B} (k : world -> M B) (w : world) : bind get k w = k w w.
Proof. reflexivity. Qed.

Lemma bind_ok {A B} (m : M A) (k : A -> M B) (w w' : world) (a : A) :
  m w = (Ok a, w') -> bind m k w = k a w'.
Proof. intros H. unfold bind. rewrite H. reflexivity. Qed.

Lemma bind_exc {A B} (m : M A) (k : A -> M B) (w w' : world) (e : exn) :
  m w = (Exc e, w') -> bind m k w = (Exc e, w').
Proof. intros H. unfold bind. rewrite H. reflexivity. Qed.

Lemma input_line (p s : string) (rest : list response) (w : world) :
  w_inputs w = Line s :: rest ->
  input p w = (Ok s, set_inputs rest (add_event (Prompt p) w)).
Proof. intros H. unfold input. simpl. rewrite H. reflexivity. Qed.

Lemma lookup_set_entry_eq (n : string) (d : dir) (h : list (string * dir)) :
  lookup n (set_entry n d h) = Some d.
Proof.
  induction h as [|[m d'] h IH]; simpl; [rewrite String.eqb_refl; reflexivity|].
  destruct (String.eqb n m) eqn:E; simpl; rewrite ?E; [reflexivity|exact IH].
Qed.

Lemma lookup_set_entry_neq (n m : string) (d : dir) (h : list (string * dir)) :
  n <> m -> lookup m (set_entry n d h) = lookup m h.
Proof.
  intros Hnm. induction h as [|[k d'] h IH]; simpl.
  - apply String.eqb_neq in Hnm. rewrite String.eqb_sym, Hnm. reflexivity.
  - destruct (String.eqb n k) eqn:E; simpl.
    + apply String.eqb_eq in E. subst k.
      apply String.eqb_neq in Hnm. rewrite String.eqb_sym, Hnm. reflexivity.
    + destruct (String.eqb m k); [reflexivity|exact IH].
Qed.



Lemma backup_name_not_install (b : string) :
  prefix backup_prefix b = true -> b <> install_dir.
Proof. intros H ->. vm_compute in H. discriminate. Qed.

Lemma glob_backups_In (n : string) (h : list (string * dir)) :
  In n (glob_backups h) <-> In n (map fst h) /\ prefix backup_prefix n = true.
Proof. unfold glob_backups. apply filter_In. Qed.

Lemma mkdir_install_spec (w : world) :
  exists h', mkdir_install w = (Ok tt, set_home h' w) /\
    (exists d, lookup install_dir h' = Some d) /\
    (forall n, n <> install_dir -> lookup n h' = lookup n (w_home w)) /\
    match lookup install_dir (w_home w) with
    | Some d => lookup install_dir h' = Some d
    | None => lookup install_dir h' = Some empty_dir
    end.
Proof.
  unfold mkdir_install, install_exists.
  destruct (lookup install_dir (w_home w)) as [d|] eqn:E.
  - exists (w_home w). destruct w; simpl in *. rewrite E.
    repeat split; eauto.
  - exists (set_entry install_dir empty_dir (w_home w)).
    rewrite lookup_set_entry_eq. repeat split; eauto.
    intros n Hn. apply lookup_set_entry_neq. congruence.
Qed.

Lemma copy_env_ok (w : world) (b c : string) (s d : dir) :
  lookup b (w_home w) = Some s -> d_env s = Some c ->
  lookup install_dir (w_home w) = Some d -> os_copy_ok (w_os w) = true ->
  copy_env b w =
  (Ok tt, set_home (set_entry install_dir
                      (mkdir (Some c) (d_requirements d) (d_children d))
                      (w_home w)) w).
Proof.
  intros Hs Hc Hd Hok. unfold copy_env. rewrite Hs, Hd, Hc, Hok. reflexivity.
Qed.

(** Accepting the restore offer copies the chosen backup's [.env]. *)
Lemma restore_accept (w : world) (b c r : string) (rest : list response) :
  latest_backup (w_home w) = Some b ->
  option_map d_env (lookup b (w_home w)) = Some (Some c) ->
  w_inputs w = Line r :: rest -> String.eqb (lower r) "y" = true ->
  os_copy_ok (w_os w) = true ->
  fst (restore_env_from_backup w) = Ok true /\
  env_file (snd (restore_env_from_backup w)) = Some c /\
  w_env_restored (snd (restore_env_from_backup w)) = true.
Proof.
  intros Hl He Hi Hy Hc.
  assert (Hb : b <> install_dir).
  { apply backup_name_not_install.
    apply latest_backup_max in Hl as [Hl _]. apply glob_backups_In in Hl.
    apply Hl. }
  unfold restore_env_from_backup. rewrite bind_get, Hl, He.
  erewrite bind_ok; [|apply input_line; exact Hi].
  rewrite Hy.
  set (w2 := set_inputs rest (add_event (Prompt restore_prompt) w)).
  destruct (mkdir_install_spec w2) as (h3 & Hm & [d Hd] & Hframe & _).
  erewrite bind_ok; [|exact Hm].
  destruct (lookup b (w_home w)) as [s|] eqn:Es; [|discriminate].
  injection He as He.
  assert (Hs3 : lookup b h3 = Some s) by (rewrite Hframe; assumption).
  erewrite bind_ok; [|apply (copy_env_ok _ b c s d); assumption].
  cbn. unfold env_file. simpl. rewrite lookup_set_entry_eq.
  repeat split.
Qed.

(** ** Finding the latest backup *)

Lemma restore_no_backups (w : world) :
  glob_backups (w_home w) = [] -> restore_env_from_backup w = (Ok false, w).
Proof.
  intros H. unfold restore_env_from_backup. rewrite bind_get.
  rewrite (proj2 (latest_backup_none _) H). reflexivity.
Qed.

(** C4: the search lists the home directory's entries named
    [StitchKit.backup-*], sorts the names and takes the last one: it returns
    the greatest matching name, so the order in which the entries were
    created or are listed does not matter; with no match it returns nothing
    and [restore_env_from_backup] returns [False] without asking anything. *)
Theorem latest_backup_spec (h : list (string * dir)) :
  (latest_backup h = None <-> glob_backups h = []) /\
  (forall m, latest_backup h = Some m <->
     In m (glob_backups h) /\
     (forall n, In n (glob_backups h) -> String.leb n m = true)) /\
  (forall h', (forall n, In n (map fst h) <-> In n (map fst h')) ->
     latest_backup h = latest_backup h') /\
  (forall w, w_home w = h -> glob_backups h = [] ->
     restore_env_from_backup w = (Ok false, w)).
Proof.
  split; [apply latest_backup_none|].
  split; [intros m; apply latest_backup_max|].
  split.
  - intros h' Hs.
    assert (Hg : forall n, In n (glob_backups h) <-> In n (glob_backups h')).
    { intros n. rewrite !glob_backups_In, Hs. reflexivity. }
    destruct (latest_backup h) as [m|] eqn:E.
    + symmetry. apply latest_backup_max.
      apply latest_backup_max in E as [E1 E2]. split.
      * apply Hg. exact E1.
      * intros n Hn. apply E2, Hg, Hn.
    + symmetry. apply latest_backup_none. apply latest_backup_none in E.
      destruct (glob_backups h') as [|x xs] eqn:E'; [reflexivity|].
      exfalso. assert (Hx : In x (x :: xs)) by (left; reflexivity).
      apply Hg in Hx. rewrite E in Hx. destruct Hx.
  - intros w <- H. apply restore_no_backups. exact H.
Qed.

Definition backups_T1_T2_T3 : list (string * dir) :=
  [("StitchKit.backup-20260101-120000", empty_dir);
   ("Documents", empty_dir);
   ("StitchKit.backup-20260301-080000", empty_dir);
   ("StitchKit.backup-20251231-235959", empty_dir)].

Lemma latest_backup_spec_witness :
  latest_backup backups_T1_T2_T3 = Some "StitchKit.backup-20260301-080000" /\
  (latest_backup [("Documents", empty_dir)] = None <->
   glob_backups [("Documents", empty_dir)] = []).
Proof.
  split.
  - apply (latest_backup_spec backups_T1_T2_T3). split.
    + vm_compute. right. left. reflexivity.
    + intros n Hn. vm_compute in Hn.
      destruct Hn as [<-|[<-|[<-|[]]]]; vm_compute; reflexivity.
  - apply (latest_backup_spec [("Documents", empty_dir)]).
Defined.

(** ** Backup, then restore *)

(** C3: after this run's backup succeeded and the user accepts the restore
    offer, the [.env] copied into the installation is the one of the
    greatest [StitchKit.backup-*] name in the home directory, whatever name
    [backup_existing] returned. *)
Theorem backup_then_restore_from_greatest
  (w w1 : world) (r r' bd b c : string) (rest rest' : list response)
  (Hinst : install_exists w = true)
  (Hin : w_inputs w = Line r :: rest) (Hy : String.eqb (lower r) "y" = true)
  (Hbk : backup_existing (set_inputs rest (add_event (Prompt backup_prompt) w))
         = (Ok (Some bd), w1))
  (Hb : In b (glob_backups (w_home w1)))
  (Hmax : forall n, In n (glob_backups (w_home w1)) -> String.leb n b = true)
  (Henv : option_map d_env (lookup b (w_home w1)) = Some (Some c))
  (Hin' : w_inputs w1 = Line r' :: rest') (Hy' : String.eqb (lower r') "y" = true)
  (Hcopy : os_copy_ok (w_os w1) = true) :
  fst (check_existing_installation w) = Ok true /\
  env_file (snd (check_existing_installation w)) = Some c.
Proof.
  assert (Hl : latest_backup (w_home w1) = Some b)
    by (apply latest_backup_max; split; assumption).
  destruct (restore_accept w1 b c r' rest' Hl Henv Hin' Hy' Hcopy)
    as (Hres & Henv2 & _).
  destruct (restore_env_from_backup w1) as [res w2] eqn:Er.
  simpl in Hres, Henv2. subst res.
  unfold check_existing_installation. rewrite bind_get, Hinst.
  erewrite bind_ok; [|apply input_line; exact Hin].
  cbv beta. rewrite Hy.
  erewrite bind_ok.
  2:{ erewrite bind_ok; [|exact Hbk]. unfold bind. rewrite Er. reflexivity. }
  split; [reflexivity|exact Henv2].
Qed.

(** Local time moved back (end of daylight saving time): the backup made an
    hour earlier has the greater name. *)
Definition dst_os : os :=
  mkos (3, 11) "20261101-011000" true true true true true true true None true.

Definition dst_world : world :=
  mkworld [installed (Some env_content);
           ("StitchKit.backup-20261101-013000", mkdir (Some filled_env) false [])]
          [Line "y"; Line "Y"] [] false false sample_shell dst_os.

Lemma backup_then_restore_from_greatest_witness :
  fst (backup_existing (set_inputs [Line "Y"]
         (add_event (Prompt backup_prompt) dst_world)))
    = Ok (Some "StitchKit.backup-20261101-011000") /\
  fst (check_existing_installation dst_world) = Ok true /\
  env_file (snd (check_existing_installation dst_world)) = Some filled_env.
Proof.
  split; [vm_compute; reflexivity|].
  apply (backup_then_restore_from_greatest dst_world
           (snd (backup_existing (set_inputs [Line "Y"]
                   (add_event (Prompt backup_prompt) dst_world))))
           "y" "Y" "StitchKit.backup-20261101-011000"
           "StitchKit.backup-20261101-013000" filled_env [Line "Y"] []);
    try reflexivity.
  - vm_compute. left. reflexivity.
  - intros n Hn. vm_compute in Hn.
    destruct Hn as [<-|[<-|[]]]; vm_compute; reflexivity.
Defined.

(** ** [backup_existing] *)

Lemma shutil_move_exc (src dst : string) (w w' : world) (e : exn) :
  shutil_move src dst w = (Exc e, w') -> e = OSError /\ w' = w.
Proof.
  unfold shutil_move.
  destruct (lookup src (w_home w)); [|intros [= <- <-]; auto].
  destruct (lookup dst (w_home w)) as [dd|].
  - destruct (existsb (String.eqb src) (d_children dd)); [intros [= <- <-]; auto|].
    destruct (os_rename_ok (w_os w)); [discriminate|intros [= <- <-]; auto].
  - destruct (os_rename_ok (w_os w)); [discriminate|intros [= <- <-]; auto].
Qed.

Lemma backup_existing_move_ok (w w' : world) :
  shutil_move install_dir (backup_prefix ++ os_clock (w_os w)) w = (Ok tt, w') ->
  backup_existing w = (Ok (Some (backup_prefix ++ os_clock (w_os w))), w').
Proof.
  intros H. unfold backup_existing. rewrite bind_get. unfold try_except.
  rewrite (bind_ok _ _ _ _ _ H). reflexivity.
Qed.

Lemma backup_existing_move_exc (w w' : world) (e : exn) :
  shutil_move install_dir (backup_prefix ++ os_clock (w_os w)) w = (Exc e, w') ->
  backup_existing w = (Ok None, w).
Proof.
  intros H. pose proof (shutil_move_exc _ _ _ _ _ H) as [-> ->].
  unfold backup_existing. rewrite bind_get. unfold try_except.
  rewrite (bind_exc _ _ _ _ _ H). reflexivity.
Qed.

(** C5: [backup_existing] never raises.  It returns the backup's name when
    [shutil.move] succeeds, and [None], with the home directory as it was,
    when the move fails; a missing installation makes the move fail. *)
Theorem backup_existing_never_raises (w : world) :
  let backup_dir := backup_prefix ++ os_clock (w_os w) in
  (exists r w', backup_existing w = (Ok r, w')) /\
  (forall w', shutil_move install_dir backup_dir w = (Ok tt, w') ->
     backup_existing w = (Ok (Some backup_dir), w')) /\
  (forall e w', shutil_move install_dir backup_dir w = (Exc e, w') ->
     backup_existing w = (Ok None, w)) /\
  (install_exists w = false -> backup_existing w = (Ok None, w)).
Proof.
  intros backup_dir.
  split.
  - destruct (shutil_move install_dir backup_dir w) as [[[]|e] w'] eqn:E.
    + exists (Some backup_dir), w'. apply backup_existing_move_ok. exact E.
    + exists None, w. eapply backup_existing_move_exc. exact E.
  - split; [intros w' H; apply backup_existing_move_ok; exact H|].
    split; [intros e w' H; eapply backup_existing_move_exc; exact H|].
    intros Hn. eapply backup_existing_move_exc. unfold shutil_move.
    unfold install_exists in Hn.
    destruct (lookup install_dir (w_home w)); [discriminate|reflexivity].
Qed.

Lemma backup_existing_never_raises_witness :
  backup_existing (sample_world [] []) = (Ok None, sample_world [] []).
Proof. apply (backup_existing_never_raises (sample_world [] [])). reflexivity. Defined.

(** ** The steps of [run] *)

Lemma check_python_version_ok (w : world) :
  version_below (os_version (w_os w)) = false -> check_python_version w = (Ok true, w).
Proof. intros H. unfold check_python_version. rewrite bind_get, H. reflexivity. Qed.

Lemma check_existing_decline (w : world) (r : string) (rest : list response) :
  install_exists w = true -> w_inputs w = Line r :: rest ->
  String.eqb (lower r) "y" = false ->
  check_existing_installation w =
  (Ok true, set_inputs rest (add_event (Prompt backup_prompt) w)).
Proof.
  intros Hi Hin Hy. unfold check_existing_installation. rewrite bind_get, Hi.
  rewrite (bind_ok _ _ _ _ _ (input_line _ _ _ _ Hin)). cbv beta. rewrite Hy.
  reflexivity.
Qed.

Lemma install_dependencies_pure (w : world) :
  exists b, install_dependencies w = (Ok b, w).
Proof.
  unfold install_dependencies. rewrite bind_get.
  destruct (lookup install_dir (w_home w)) as [d|];
    [destruct (d_requirements d)|]; eexists; reflexivity.
Qed.

Lemma setup_environment_existing (w : world) :
  env_exists w = true -> setup_environment w = (Ok true, w).
Proof.
  intros H. unfold setup_environment. rewrite bind_get, H.
  destruct (w_env_restored w); reflexivity.
Qed.

Lemma create_alias_spec (w : world) : create_alias w = (Ok tt, alias_update w).
Proof. reflexivity. Qed.







(** ** [setup_environment] *)

(** C6 (counterexample): with [env_restored] set but no [.env] in the
    installation directory, the step writes the template. *)
Lemma setup_environment_restored_flag_without_file :
  let w := mkworld [installed None] [] [] true false sample_shell sample_os in
  w_env_restored w = true /\ env_file w = None /\
  env_file (snd (setup_environment w)) = Some env_content.
Proof. vm_compute. repeat split. Qed.

(** C6 (amended): the step skips materialization when [env_restored] is set
    and a [.env] exists; whenever no [.env] exists it writes the template,
    the flag set or not; an existing [.env], with any content and any flag,
    is left as it is (the whole world is unchanged). *)
Theorem setup_environment_branches (w : world) :
  (w_env_restored w = true -> env_exists w = true ->
     setup_environment w = (Ok true, w)) /\
  (env_exists w = true -> setup_environment w = (Ok true, w)) /\
  (env_exists w = false -> install_exists w = true -> os_write_ok (w_os w) = true ->
     fst (setup_environment w) = Ok true /\
     env_file (snd (setup_environment w)) = Some env_content).
Proof.
  split; [intros _; apply setup_environment_existing|].
  split; [apply setup_environment_existing|].
  intros Hn Hi Hw. unfold setup_environment. rewrite bind_get, Hn, andb_false_r.
  cbn [negb]. unfold create_basic_env, write_env, install_exists, env_file in *.
  destruct (lookup install_dir (w_home w)) as [d|] eqn:Ed; [|discriminate].
  unfold bind. rewrite Ed, Hw. simpl. rewrite lookup_set_entry_eq. split; reflexivity.
Qed.

Lemma setup_environment_branches_witness :
  let w := sample_world [installed (Some "CANVAS_API_KEY=custom")] [] in
  setup_environment w = (Ok true, w).
Proof.
  intros w. apply (setup_environment_branches w). reflexivity.
Defined.

(** ** Exit codes *)

(** A computation that never returns [False]. *)
Definition never_false (m : M bool) : Prop := forall w, fst (m w) <> Ok false.

(** A computation that, when it returns [True], has last shown the launch or
    the manual next steps. *)
Definition terminal (e : event) : Prop := e = Launched \/ e = ManualSteps.

Definition ends_terminal (m : M bool) : Prop :=
  forall w, fst (m w) = Ok true ->
  exists t e, w_trace (snd (m w)) = (t ++ [e])%list /\ terminal e.

Definition emits_terminal (m : M unit) : Prop :=
  forall w w', m w = (Ok tt, w') ->
  exists t e, w_trace w' = (t ++ [e])%list /\ terminal e.

Lemma never_false_bind {A} (m : M A) (k : A -> M bool) :
  (forall a, never_false (k a)) -> never_false (bind m k).
Proof.
  intros Hk w. unfold bind. destruct (m w) as [[a|e] w'];
    [apply Hk|simpl; discriminate].
Qed.

Lemma never_false_ret : never_false (ret true).
Proof. intros w. simpl. discriminate. Qed.

Lemma never_false_if (b : bool) (m1 m2 : M bool) :
  never_false m1 -> never_false m2 -> never_false (if b then m1 else m2).
Proof. destruct b; auto. Qed.

Lemma ends_terminal_bind {A} (m : M A) (k : A -> M bool) :
  (forall a, ends_terminal (k a)) -> ends_terminal (bind m k).
Proof.
  intros Hk w. unfold bind. destruct (m w) as [[a|e] w'];
    [apply Hk|simpl; discriminate].
Qed.

Lemma ends_terminal_if (b : bool) (m1 m2 : M bool) :
  ends_terminal m1 -> ends_terminal m2 -> ends_terminal (if b then m1 else m2).
Proof. destruct b; auto. Qed.

Lemma ends_terminal_ret_false : ends_terminal (ret false).
Proof. intros w. simpl. discriminate. Qed.

Lemma ends_terminal_seq (m : M unit) :
  emits_terminal m -> ends_terminal (m ;; ret true).
Proof.
  intros Hm w Hr. unfold bind in *. destruct (m w) as [[[]|e] w'] eqn:E.
  - apply (Hm w w' E).
  - discriminate Hr.
Qed.

Lemma emits_terminal_show : emits_terminal show_manual_next_steps.
Proof.
  intros w w' [= <-]. exists (w_trace w), ManualSteps. split; [reflexivity|right; reflexivity].
Qed.

Lemma emits_terminal_launch : emits_terminal launch.
Proof.
  intros w w'. unfold launch. rewrite bind_get.
  destruct (os_launch_ok (w_os w)).
  - intros [= <-]. exists (w_trace w), Launched. split; [reflexivity|left; reflexivity].
  - intros [= <-]. exists (w_trace w ++ [LaunchFailed])%list, ManualSteps.
    split; [reflexivity|right; reflexivity].
Qed.

Lemma emits_terminal_if (b : bool) (m1 m2 : M unit) :
  emits_terminal m1 -> emits_terminal m2 -> emits_terminal (if b then m1 else m2).
Proof. destruct b; auto. Qed.

Lemma never_false_bind_true (m : M bool) (k : bool -> M bool) :
  never_false m -> never_false (k true) -> never_false (bind m k).
Proof.
  intros Hm Hk w. unfold bind. specialize (Hm w).
  destruct (m w) as [[[|]|e] w'] eqn:E; simpl in Hm.
  - apply Hk.
  - congruence.
  - simpl. discriminate.
Qed.

Ltac never_false_tac :=
  repeat (cbv beta;
          match goal with
          | |- never_false (ret true) => apply never_false_ret
          | |- never_false (if _ then _ else _) => apply never_false_if
          | |- never_false (bind _ _) => apply never_false_bind; intro
          end).

Ltac emits_terminal_tac :=
  repeat match goal with
         | |- emits_terminal (if _ then _ else _) => apply emits_terminal_if
         | |- emits_terminal launch => apply emits_terminal_launch
         | |- emits_terminal show_manual_next_steps => apply emits_terminal_show
         end.

Ltac ends_terminal_tac :=
  repeat (cbv beta;
          match goal with
          | |- ends_terminal (ret false) => apply ends_terminal_ret_false
          | |- ends_terminal (bind _ (fun _ => ret true)) =>
              apply ends_terminal_seq; emits_terminal_tac
          | |- ends_terminal (if _ then _ else _) => apply ends_terminal_if
          | |- ends_terminal (bind _ _) => apply ends_terminal_bind; intro
          end).

Lemma final_steps_never_false : never_false final_steps.
Proof. unfold final_steps. never_false_tac. Qed.

Lemma setup_environment_never_false : never_false setup_environment.
Proof. unfold setup_environment. never_false_tac. Qed.

Lemma run_ends_terminal : ends_terminal run.
Proof. unfold run, final_steps. ends_terminal_tac. Qed.

Lemma run_version_below (w : world) :
  version_below (os_version (w_os w)) = true -> run w = (Ok false, w).
Proof.
  intros H.
  assert (Hc : check_python_version w = (Ok false, w)).
  { unfold check_python_version. rewrite bind_get, H. reflexivity. }
  unfold run. rewrite (bind_ok _ _ _ _ _ Hc). reflexivity.
Qed.

Lemma run_false_version (w : world) :
  fst (run w) = Ok false -> version_below (os_version (w_os w)) = true.
Proof.
  intros Hr. destruct (version_below (os_version (w_os w))) eqn:Hv; [reflexivity|].
  exfalso. revert Hr. unfold run.
  rewrite (bind_ok _ _ _ _ _ (check_python_version_ok w Hv)). cbv beta. cbn [negb].
  apply never_false_bind; intros _.
  apply never_false_bind; intros w2.
  apply never_false_bind; intros _.
  apply never_false_bind; intros _.
  apply never_false_bind_true; [apply setup_environment_never_false|].
  cbn [negb]. apply never_false_bind; intros _. apply final_steps_never_false.
Qed.

(** C8: [main] exits with 1 exactly when the Python version is below 3.7 or
    an exception (a [KeyboardInterrupt] included) leaves [run]; otherwise
    it exits with 0, and then the last thing shown was the launch of
    main.py or the manual next steps. *)
Theorem main_exit_code_spec (w : world) :
  (main_exit_code w = 0 \/ main_exit_code w = 1) /\
  (main_exit_code w = 1 <->
     version_below (os_version (w_os w)) = true \/ exists e, fst (run w) = Exc e) /\
  (main_exit_code w = 0 <-> fst (run w) = Ok true) /\
  (main_exit_code w = 0 ->
     exists t e, w_trace (snd (run w)) = (t ++ [e])%list /\ terminal e).
Proof.
  pose proof (run_ends_terminal w) as Hend.
  pose proof (run_version_below w) as Hver.
  pose proof (run_false_version w) as Hfalse.
  unfold main_exit_code.
  destruct (fst (run w)) as [[|]|e] eqn:E.
  - split; [left; reflexivity|]. split.
    { split; [discriminate|].
      intros [Hv|[e' He]]; [rewrite (Hver Hv) in E; discriminate|discriminate]. }
    split; [split; intros; reflexivity|].
    intros _. apply Hend. reflexivity.
  - split; [right; reflexivity|]. split.
    { split; [intros _; left; apply Hfalse; reflexivity|intros _; reflexivity]. }
    split; [split; discriminate|]. discriminate.
  - destruct e; (split; [right; reflexivity|]); split;
      try (split; [intros _; right; eexists; reflexivity|intros _; reflexivity]);
      (split; [split; discriminate|]); discriminate.
Qed.

Lemma main_exit_code_spec_witness :
  main_exit_code (sample_world [] [Interrupt]) = 1 /\
  main_exit_code (sample_world [] [Line "n"]) = 0.
Proof.
  split.
  - apply (main_exit_code_spec (sample_world [] [Interrupt])).
    right. exists KeyboardInterrupt. vm_compute. reflexivity.
  - apply (main_exit_code_spec (sample_world [] [Line "n"])).
    vm_compute. reflexivity.
Defined.

(** ** The three confirmations *)

(** [m] leaves the entry [n] of the home directory alone, whatever it
    returns or raises. *)
Definition frames (n : string) {A} (m : M A) : Prop :=
  forall w, lookup n (w_home (snd (m w))) = lookup n (w_home w).

Lemma frames_bind {A B} (n : string) (m : M A) (k : A -> M B) :
  frames n m -> (forall a, frames n (k a)) -> frames n (bind m k).
Proof.
  intros Hm Hk w. unfold bind. specialize (Hm w).
  destruct (m w) as [[a|e] w'] eqn:E; simpl in *.
  - rewrite Hk. exact Hm.
  - exact Hm.
Qed.

Lemma frames_get (n : string) : frames n get.
Proof. intros w. reflexivity. Qed.

Lemma frames_ret {A} (n : string) (a : A) : frames n (ret a).
Proof. intros w. reflexivity. Qed.

Lemma frames_input (n p : string) : frames n (input p).
Proof. intros w. unfold input. simpl. destruct (w_inputs w) as [|[]]; reflexivity. Qed.

Lemma frames_mkdir_install (n : string) : n <> install_dir -> frames n mkdir_install.
Proof.
  intros Hn w. destruct (mkdir_install_spec w) as (h' & -> & _ & Hf & _).
  apply Hf. exact Hn.
Qed.

Lemma frames_copy_env (n b : string) : n <> install_dir -> frames n (copy_env b).
Proof.
  intros Hn w. unfold copy_env.
  destruct (lookup b (w_home w)) as [s|]; [|reflexivity].
  destruct (lookup install_dir (w_home w)) as [d|]; [|reflexivity].
  destruct (d_env s); [|reflexivity].
  destruct (os_copy_ok (w_os w)); [|reflexivity].
  simpl. apply lookup_set_entry_neq. congruence.
Qed.

Lemma frames_modify (n : string) (f : world -> world) :
  (forall w, w_home (f w) = w_home w) -> frames n (modify f).
Proof. intros Hf w. simpl. rewrite Hf. reflexivity. Qed.

Lemma frames_restore (n : string) : n <> install_dir -> frames n restore_env_from_backup.
Proof.
  intros Hn. unfold restore_env_from_backup.
  apply frames_bind; [apply frames_get|intros w].
  destruct (latest_backup (w_home w)) as [b|]; [|apply frames_ret].
  destruct (option_map d_env (lookup b (w_home w))) as [[c|]|]; try apply frames_ret.
  apply frames_bind; [apply frames_input|intros r].
  destruct (String.eqb (lower r) "y"); [|apply frames_ret].
  apply frames_bind; [apply frames_mkdir_install; exact Hn|intros _].
  apply frames_bind; [apply frames_copy_env; exact Hn|intros _].
  apply frames_bind; [apply frames_modify; reflexivity|intros _].
  apply frames_bind; [apply frames_get|intros w'].
  apply frames_bind; [apply frames_modify; reflexivity|intros _].
  apply frames_ret.
Qed.

Lemma prefix_app_self (a b : string) : prefix a (a ++ b) = true.
Proof.
  induction a as [|c a IH]; simpl; [destruct b; reflexivity|].
  destruct (ascii_dec c c) as [_|Hc]; [exact IH|contradiction Hc; reflexivity].
Qed.

Lemma check_existing_accept (w : world) (r : string) (rest : list response) (s : dir) :
  lookup install_dir (w_home w) = Some s ->
  w_inputs w = Line r :: rest -> String.eqb (lower r) "y" = true ->
  os_rename_ok (w_os w) = true ->
  lookup (backup_prefix ++ os_clock (w_os w)) (w_home w) = None ->
  lookup (backup_prefix ++ os_clock (w_os w))
         (w_home (snd (check_existing_installation w))) = Some s.
Proof.
  intros Hs Hi Hy Hr Hfree.
  set (bd := backup_prefix ++ os_clock (w_os w)).
  assert (Hbd : bd <> install_dir) by (apply backup_name_not_install, prefix_app_self).
  assert (Hinst : install_exists w = true) by (unfold install_exists; rewrite Hs; reflexivity).
  set (w2 := set_inputs rest (add_event (Prompt backup_prompt) w)).
  set (w3 := set_home (set_entry bd s (remove_entry install_dir (w_home w))) w2).
  assert (Hmove : shutil_move install_dir (backup_prefix ++ os_clock (w_os w2)) w2 = (Ok tt, w3)).
  { unfold shutil_move. change (w_home w2) with (w_home w).
    change (w_os w2) with (w_os w). rewrite Hs. unfold bd. rewrite Hfree, Hr. reflexivity. }
  unfold check_existing_installation. rewrite bind_get, Hinst.
  rewrite (bind_ok _ _ _ _ _ (input_line _ _ _ _ Hi)). cbv beta. fold w2. rewrite Hy.
  unfold bind at 1.
  rewrite (bind_ok _ _ _ _ _ (backup_existing_move_ok _ _ Hmove)). cbv beta.
  pose proof (frames_restore bd Hbd w3) as Hf.
  unfold bind. destruct (restore_env_from_backup w3) as [[a|e] w4] eqn:Er;
    unfold ret; cbn [fst snd] in Hf |- *; rewrite Hf;
    apply lookup_set_entry_eq.
Qed.

Lemma restore_decline (w : world) (b c r : string) (rest : list response) :
  latest_backup (w_home w) = Some b ->
  option_map d_env (lookup b (w_home w)) = Some (Some c) ->
  w_inputs w = Line r :: rest -> String.eqb (lower r) "y" = false ->
  restore_env_from_backup w =
  (Ok false, set_inputs rest (add_event (Prompt restore_prompt) w)).
Proof.
  intros Hl He Hi Hy. unfold restore_env_from_backup. rewrite bind_get, Hl, He.
  rewrite (bind_ok _ _ _ _ _ (input_line _ _ _ _ Hi)). cbv beta. rewrite Hy.
  reflexivity.
Qed.

Lemma final_steps_decline (w : world) (r : string) (rest : list response) :
  w_env_has_credentials w = false -> check_env_credentials w = false ->
  w_inputs w = Line r :: rest -> String.eqb (lower r) "y" = false ->
  final_steps w =
  (Ok true, add_event ManualSteps (set_inputs rest
     (add_event (Prompt configure_prompt) (set_has_credentials false w)))).
Proof.
  intros Hh Hc Hi Hy. unfold final_steps. rewrite bind_get, Hh, Hc.
  rewrite (bind_ok _ _ _ _ _
    (eq_refl : modify (set_has_credentials false) w
               = (Ok tt, set_has_credentials false w))).
  cbv beta. rewrite bind_get.
  change (w_env_has_credentials (set_has_credentials false w)) with false.
  cbv iota.
  rewrite (bind_ok _ _ _ _ _ (input_line _ _ _ (set_has_credentials false w) Hi)).
  cbv beta. rewrite Hy. reflexivity.
Qed.

Lemma frames_launch (n : string) : frames n launch.
Proof.
  unfold launch. apply frames_bind; [apply frames_get|intros w].
  destruct (os_launch_ok (w_os w)); [apply frames_modify; reflexivity|].
  apply frames_bind; [|intros _]; apply frames_modify; reflexivity.
Qed.

Lemma frames_show (n : string) : frames n show_manual_next_steps.
Proof. apply frames_modify. reflexivity. Qed.

Lemma guide_env_setup_edit (w : world) (enter c : string) (rest : list response) (d : dir) :
  w_inputs w = Line enter :: rest ->
  os_nano (w_os w) || os_vi (w_os w) = true -> os_edit (w_os w) = Some c ->
  lookup install_dir (w_home w) = Some d ->
  exists w', guide_env_setup w = (Ok tt, w') /\ env_file w' = Some c.
Proof.
  intros Hi He Hc Hd. unfold guide_env_setup.
  rewrite (bind_ok _ _ _ _ _ (input_line _ _ _ _ Hi)). cbv beta.
  rewrite bind_get. change (w_os (set_inputs rest (add_event
    (Prompt "Press Enter to open the editor...") w))) with (w_os w).
  rewrite He. unfold bind, run_editor.
  change (w_os (set_inputs rest (add_event
    (Prompt "Press Enter to open the editor...") w))) with (w_os w).
  change (w_home (set_inputs rest (add_event
    (Prompt "Press Enter to open the editor...") w))) with (w_home w).
  rewrite Hc, Hd. eexists. split; [reflexivity|].
  unfold env_file. simpl. rewrite lookup_set_entry_eq. reflexivity.
Qed.

Lemma final_steps_accept_edits (w : world) (r enter c : string)
  (rest : list response) :
  w_env_has_credentials w = false -> check_env_credentials w = false ->
  w_inputs w = Line r :: Line enter :: rest -> String.eqb (lower r) "y" = true ->
  os_nano (w_os w) || os_vi (w_os w) = true -> os_edit (w_os w) = Some c ->
  install_exists w = true ->
  env_file (snd (final_steps w)) = Some c.
Proof.
  intros Hh Hc Hi Hy He Hedit Hinst.
  unfold install_exists in Hinst.
  destruct (lookup install_dir (w_home w)) as [d|] eqn:Ed; [|discriminate].
  unfold final_steps. rewrite bind_get, Hh, Hc.
  rewrite (bind_ok _ _ _ _ _
    (eq_refl : modify (set_has_credentials false) w
               = (Ok tt, set_has_credentials false w))).
  cbv beta. rewrite bind_get.
  change (w_env_has_credentials (set_has_credentials false w)) with false.
  cbv iota.
  rewrite (bind_ok _ _ _ _ _ (input_line _ _ _ (set_has_credentials false w) Hi)).
  cbv beta. rewrite Hy.
  destruct (guide_env_setup_edit
              (set_inputs (Line enter :: rest) (add_event (Prompt configure_prompt)
                 (set_has_credentials false w))) enter c rest d eq_refl He Hedit Ed)
    as (w' & Hg & Hw').
  rewrite (bind_ok _ _ _ _ _ Hg). cbv beta.
  assert (Hf : frames install_dir
    (w0 <- get ;;
     (if w_env_has_credentials w0 then launch else show_manual_next_steps) ;;
     ret true)).
  { apply frames_bind; [apply frames_get|intros w0].
    apply frames_bind; [|intros _; apply frames_ret].
    destruct (w_env_has_credentials w0); [apply frames_launch|apply frames_show]. }
  unfold env_file in *. rewrite Hf. exact Hw'.
Qed.

(** C9: each of the three questions (backup, restore, configure now) is
    accepted exactly when the answer, lowercased, is ["y"].  Any other answer
    ("yes" included) only consumes the line: nothing is moved, copied or
    edited.  The answer "y" (or "Y") performs the step: the installation is
    moved to the backup name, the backup's [.env] is copied, the editor's
    result lands in [.env]. *)
Theorem confirmations_accept_only_y :
  (forall w r rest, install_exists w = true -> w_inputs w = Line r :: rest ->
     String.eqb (lower r) "y" = false ->
     check_existing_installation w =
     (Ok true, set_inputs rest (add_event (Prompt backup_prompt) w))) /\
  (forall w r rest s, lookup install_dir (w_home w) = Some s ->
     w_inputs w = Line r :: rest -> String.eqb (lower r) "y" = true ->
     os_rename_ok (w_os w) = true ->
     lookup (backup_prefix ++ os_clock (w_os w)) (w_home w) = None ->
     lookup (backup_prefix ++ os_clock (w_os w))
            (w_home (snd (check_existing_installation w))) = Some s) /\
  (forall w b c r rest, latest_backup (w_home w) = Some b ->
     option_map d_env (lookup b (w_home w)) = Some (Some c) ->
     w_inputs w = Line r :: rest -> String.eqb (lower r) "y" = false ->
     restore_env_from_backup w =
     (Ok false, set_inputs rest (add_event (Prompt restore_prompt) w))) /\
  (forall w b c r rest, latest_backup (w_home w) = Some b ->
     option_map d_env (lookup b (w_home w)) = Some (Some c) ->
     w_inputs w = Line r :: rest -> String.eqb (lower r) "y" = true ->
     os_copy_ok (w_os w) = true ->
     fst (restore_env_from_backup w) = Ok true /\
     env_file (snd (restore_env_from_backup w)) = Some c) /\
  (forall w r rest, w_env_has_credentials w = false ->
     check_env_credentials w = false ->
     w_inputs w = Line r :: rest -> String.eqb (lower r) "y" = false ->
     final_steps w =
     (Ok true, add_event ManualSteps (set_inputs rest
        (add_event (Prompt configure_prompt) (set_has_credentials false w))))) /\
  (forall w r enter c rest, w_env_has_credentials w = false ->
     check_env_credentials w = false ->
     w_inputs w = Line r :: Line enter :: rest -> String.eqb (lower r) "y" = true ->
     os_nano (w_os w) || os_vi (w_os w) = true -> os_edit (w_os w) = Some c ->
     install_exists w = true ->
     env_file (snd (final_steps w)) = Some c).
Proof.
  split; [intros w r rest; apply check_existing_decline|].
  split; [intros w r rest s; apply check_existing_accept|].
  split; [intros w b c r rest; apply restore_decline|].
  split.
  { intros w b c r rest Hl He Hi Hy Hc.
    destruct (restore_accept w b c r rest Hl He Hi Hy Hc) as (H1 & H2 & _).
    split; assumption. }
  split; [intros w r rest; apply final_steps_decline|].
  intros w r enter c rest; apply final_steps_accept_edits.
Qed.

Definition backup_only_home : list (string * dir) :=
  [("StitchKit.backup-20260101-000000", mkdir (Some filled_env) false [])].

Lemma confirmations_accept_only_y_witness :
  check_existing_installation (sample_world [installed (Some filled_env)] [Line "yes"]) =
  (Ok true, set_inputs [] (add_event (Prompt backup_prompt)
     (sample_world [installed (Some filled_env)] [Line "yes"]))) /\
  restore_env_from_backup (sample_world backup_only_home [Line "Yes"]) =
  (Ok false, set_inputs [] (add_event (Prompt restore_prompt)
     (sample_world backup_only_home [Line "Yes"]))) /\
  final_steps (sample_world [installed (Some env_content)] [Line "YES"]) =
  (Ok true, add_event ManualSteps (set_inputs []
     (add_event (Prompt configure_prompt)
        (set_has_credentials false
           (sample_world [installed (Some env_content)] [Line "YES"]))))).
Proof.
  split; [|split].
  - apply (proj1 confirmations_accept_only_y _ "yes" []); reflexivity.
  - apply (proj1 (proj2 (proj2 confirmations_accept_only_y))
             _ "StitchKit.backup-20260101-000000" filled_env "Yes" []);
      vm_compute; reflexivity.
  - apply (proj1 (proj2 (proj2 (proj2 (proj2 confirmations_accept_only_y))))
             _ "YES" []); vm_compute; reflexivity.
Defined.

(** ** The shell startup file *)

Module AliasFacts.
Import Alias.

Lemma flookup_fset_eq (n c : string) (fs : files) : flookup n (fset n c fs) = Some c.
Proof.
  induction fs as [|[m c'] fs IH]; simpl; [rewrite String.eqb_refl; reflexivity|].
  destruct (String.eqb n m) eqn:E; simpl; rewrite ?E; [reflexivity|exact IH].
Qed.

Lemma flookup_fset_neq (n m c : string) (fs : files) :
  n <> m -> flookup m (fset n c fs) = flookup m fs.
Proof.
  intros Hnm. induction fs as [|[k c'] fs IH]; simpl.
  - apply String.eqb_neq in Hnm. rewrite String.eqb_sym, Hnm. reflexivity.
  - destruct (String.eqb n k) eqn:E; simpl.
    + apply String.eqb_eq in E. subst k.
      apply String.eqb_neq in Hnm. rewrite String.eqb_sym, Hnm. reflexivity.
    + destruct (String.eqb m k); [reflexivity|exact IH].
Qed.

Lemma append_empty_r (s : string) : (s ++ EmptyString)%string = s.
Proof. induction s as [|c s IH]; simpl; [reflexivity|rewrite IH; reflexivity]. Qed.

Lemma contains_app_r (sub a b : string) :
  contains sub b = true -> contains sub (a ++ b) = true.
Proof.
  intros H. induction a as [|c a IH]; [exact H|].
  cbn [append contains]. rewrite IH. apply orb_true_r.
Qed.

Lemma alias_block_has_alias : contains "alias stitchkit=" alias_block = true.
Proof. vm_compute. reflexivity. Qed.

(** The three outcomes, spelled out. *)
Lemma create_alias_cases (sv : option string) (rd ap : bool) (fs : files) :
  let rc := rc_file (shell_of sv) in
  create_alias sv rd ap fs = (fs, AliasExists) \/
  create_alias sv rd ap fs = (fs, AliasFailed) \/
  exists old, (flookup rc fs = Some old \/ (flookup rc fs = None /\ old = EmptyString)) /\
    create_alias sv rd ap fs = (fset rc (old ++ alias_block) fs, AliasCreated rc).
Proof.
  intros rc. unfold create_alias. fold rc.
  destruct (flookup rc fs) as [c|] eqn:E.
  - destruct rd; [|right; left; reflexivity].
    destruct (contains "alias stitchkit=" c); [left; reflexivity|].
    destruct ap; [|right; left; reflexivity].
    right; right. exists c. split; [left; reflexivity|reflexivity].
  - destruct ap; [|right; left; reflexivity].
    right; right. exists EmptyString. split; [right; split; reflexivity|reflexivity].
Qed.

Lemma create_alias_appends_spec (sv : option string) (rd ap : bool) (fs : files) :
  let rc := rc_file (shell_of sv) in
  let fs' := fst (create_alias sv rd ap fs) in
  (forall n, n <> rc -> flookup n fs' = flookup n fs) /\
  (forall n c, flookup n fs = Some c -> exists ext, flookup n fs' = Some (c ++ ext)) /\
  (snd (create_alias sv rd ap fs) <> AliasFailed ->
   exists c', flookup rc fs' = Some c' /\ contains "alias stitchkit=" c' = true).
Proof.
  intros rc fs'. unfold fs', create_alias. fold rc.
  assert (Hsame : forall n c, flookup n fs = Some c ->
                  exists ext, flookup n fs = Some (c ++ ext)).
  { intros n c H. exists EmptyString. rewrite append_empty_r. exact H. }
  assert (Happ : forall old,
    (forall n, n <> rc -> flookup n (fset rc (old ++ alias_block) fs) = flookup n fs) /\
    (flookup rc fs = Some old \/ flookup rc fs = None) ->
    (forall n c, flookup n fs = Some c ->
       exists ext, flookup n (fset rc (old ++ alias_block) fs) = Some (c ++ ext)) /\
    (exists c', flookup rc (fset rc (old ++ alias_block) fs) = Some c' /\
                contains "alias stitchkit=" c' = true)).
  { intros old [Hfr Hold]. split.
    - intros n c Hn. destruct (String.eqb n rc) eqn:E.
      + apply String.eqb_eq in E. subst n. rewrite flookup_fset_eq.
        destruct Hold as [Hold|Hold]; rewrite Hold in Hn; [|discriminate].
        injection Hn as <-. exists alias_block. reflexivity.
      + apply String.eqb_neq in E. rewrite Hfr by exact E. apply Hsame. exact Hn.
    - exists (old ++ alias_block). split; [apply flookup_fset_eq|].
      apply contains_app_r, alias_block_has_alias. }
  assert (Hfr : forall old n, n <> rc ->
                flookup n (fset rc (old ++ alias_block) fs) = flookup n fs).
  { intros old n Hn. apply flookup_fset_neq. congruence. }
  destruct (flookup rc fs) as [c0|] eqn:E.
  - destruct rd; [destruct (contains "alias stitchkit=" c0) eqn:Ec|].
    + cbn [fst snd]. split; [reflexivity|]. split; [exact Hsame|].
      intros _. exists c0. split; assumption.
    + destruct ap; cbn [fst snd].
      * destruct (Happ c0) as [H1 H2]; [split; [apply Hfr|left; reflexivity]|].
        split; [apply Hfr|]. split; [exact H1|intros _; exact H2].
      * split; [reflexivity|]. split; [exact Hsame|]. intros H; contradiction H; reflexivity.
    + cbn [fst snd]. split; [reflexivity|]. split; [exact Hsame|].
      intros H; contradiction H; reflexivity.
  - destruct ap; cbn [fst snd].
    + destruct (Happ EmptyString) as [H1 H2]; [split; [apply Hfr|right; reflexivity]|].
      split; [apply Hfr|]. split; [exact H1|intros _; exact H2].
    + split; [reflexivity|]. split; [exact Hsame|]. intros H; contradiction H; reflexivity.
Qed.

(** [create_alias] only ever appends: the startup file it picks keeps its
    old content as a prefix, every other file is left alone, and unless an
    exception was caught the picked file then holds ["alias stitchkit="]. *)
Theorem create_alias_only_appends (sv : option string) (rd ap : bool) (fs : files) :
  let rc := rc_file (shell_of sv) in
  let fs' := fst (create_alias sv rd ap fs) in
  (forall n, n <> rc -> flookup n fs' = flookup n fs) /\
  (forall n c, flookup n fs = Some c -> exists ext, flookup n fs' = Some (c ++ ext)) /\
  (snd (create_alias sv rd ap fs) <> AliasFailed ->
   exists c', flookup rc fs' = Some c' /\ contains "alias stitchkit=" c' = true).
Proof. apply create_alias_appends_spec. Qed.

Lemma create_alias_only_appends_witness :
  let fs := [(".bashrc", "export PATH=~/bin" ++ nl); (".zshrc", "alias ll=ls" ++ nl)] in
  let fs' := fst (create_alias (Some "/usr/bin/zsh") true true fs) in
  flookup ".bashrc" fs' = Some ("export PATH=~/bin" ++ nl) /\
  (exists ext, flookup ".zshrc" fs' = Some (("alias ll=ls" ++ nl) ++ ext)) /\
  (exists c', flookup ".zshrc" fs' = Some c' /\ contains "alias stitchkit=" c' = true).
Proof.
  intros fs fs'.
  destruct (create_alias_only_appends (Some "/usr/bin/zsh") true true fs) as (H1 & H2 & H3).
  split; [|split].
  - apply H1. vm_compute. discriminate.
  - apply H2. reflexivity.
  - apply H3. vm_compute. discriminate.
Defined.

Lemma create_alias_idempotent_spec (sv : option string) (rd ap : bool) (fs : files) :
  let fs1 := fst (create_alias sv rd ap fs) in
  fst (create_alias sv rd ap fs1) = fs1 /\
  (rd = true -> snd (create_alias sv rd ap fs) <> AliasFailed ->
   snd (create_alias sv rd ap fs1) = AliasExists).
Proof.
  intros fs1. unfold fs1.
  destruct (create_alias_cases sv rd ap fs) as [H|[H|(old & _ & H)]]; rewrite H;
    cbn [fst snd].
  - rewrite H. split; reflexivity.
  - rewrite H. split; [reflexivity|]. intros _ Hf. contradiction Hf. reflexivity.
  - unfold create_alias. rewrite flookup_fset_eq.
    destruct rd; [|split; [reflexivity|discriminate]].
    rewrite contains_app_r by apply alias_block_has_alias. split; reflexivity.
Qed.

(** Running [create_alias] again changes nothing more; when the startup file
    can be read, the second run finds the alias the first one added. *)
Theorem create_alias_idempotent (sv : option string) (rd ap : bool) (fs : files) :
  let fs1 := fst (create_alias sv rd ap fs) in
  fst (create_alias sv rd ap fs1) = fs1 /\
  (rd = true -> snd (create_alias sv rd ap fs) <> AliasFailed ->
   snd (create_alias sv rd ap fs1) = AliasExists).
Proof. apply create_alias_idempotent_spec. Qed.

Lemma create_alias_idempotent_witness :
  let fs := [(".profile", "umask 022" ++ nl)] in
  let fs1 := fst (create_alias (Some "/bin/sh") true true fs) in
  fst (create_alias (Some "/bin/sh") true true fs1) = fs1 /\
  snd (create_alias (Some "/bin/sh") true true fs1) = AliasExists.
Proof.
  intros fs fs1.
  destruct (create_alias_idempotent (Some "/bin/sh") true true fs) as [H1 H2].
  split; [exact H1|]. apply H2; [reflexivity|vm_compute; discriminate].
Defined.

End AliasFacts.

(** ** More of [run]: edge and error paths *)

Lemma check_existing_absent (w : world) :
  install_exists w = false -> check_existing_installation w = (Ok false, w).
Proof. intros H. unfold check_existing_installation. rewrite bind_get, H. reflexivity. Qed.

Lemma mkdir_install_absent (w : world) :
  install_exists w = false ->
  mkdir_install w = (Ok tt, set_home (set_entry install_dir empty_dir (w_home w)) w).
Proof. intros H. unfold mkdir_install. rewrite H. reflexivity. Qed.

Lemma write_env_ok (w : world) (d : dir) (c : string) :
  lookup install_dir (w_home w) = Some d -> os_write_ok (w_os w) = true ->
  write_env c w =
  (Ok tt, set_home (set_entry install_dir
                      (mkdir (Some c) (d_requirements d) (d_children d)) (w_home w)) w).
Proof. intros Hd Hw. unfold write_env. rewrite Hd, Hw. reflexivity. Qed.

Lemma setup_environment_absent (w : world) (d : dir) :
  lookup install_dir (w_home w) = Some d -> d_env d = None ->
  os_write_ok (w_os w) = true ->
  setup_environment w =
  (Ok true, set_home (set_entry install_dir
              (mkdir (Some env_content) (d_requirements d) (d_children d)) (w_home w)) w).
Proof.
  intros Hd He Hw. unfold setup_environment. rewrite bind_get.
  assert (Hx : env_exists w = false) by (unfold env_exists, env_file; rewrite Hd, He; reflexivity).
  rewrite Hx, andb_false_r. cbn [negb].
  rewrite (bind_ok _ _ _ _ _ (write_env_ok w d env_content Hd Hw)). reflexivity.
Qed.

Lemma credentials_in_env_content : credentials_in env_content = false.
Proof. vm_compute. reflexivity. Qed.

(** The home directory of a fresh run, up to the end of step 6. *)
Lemma run_fresh_prefix (w : world) :
  lookup install_dir (w_home w) = None ->
  version_below (os_version (w_os w)) = false ->
  os_write_ok (w_os w) = true ->
  run w = final_steps (alias_update (set_home
            (set_entry install_dir (mkdir (Some env_content) false [])
               (set_entry install_dir empty_dir (w_home w))) w)).
Proof.
  intros Hn Hv Hw.
  assert (Hi : install_exists w = false) by (unfold install_exists; rewrite Hn; reflexivity).
  unfold run.
  rewrite (bind_ok _ _ _ _ _ (check_python_version_ok w Hv)). cbv beta. cbn [negb].
  rewrite (bind_ok _ _ _ _ _ (check_existing_absent w Hi)). cbv beta.
  rewrite bind_get, Hi.
  rewrite (bind_ok _ _ _ _ _ (mkdir_install_absent w Hi)). cbv beta.
  set (w1 := set_home (set_entry install_dir empty_dir (w_home w)) w).
  assert (Hd : lookup install_dir (w_home w1) = Some empty_dir)
    by apply lookup_set_entry_eq.
  assert (Hdep : install_dependencies w1 = (Ok true, w1)).
  { unfold install_dependencies. rewrite bind_get, Hd. reflexivity. }
  rewrite (bind_ok _ _ _ _ _ Hdep). cbv beta.
  rewrite (bind_ok _ _ _ _ _ (setup_environment_absent w1 empty_dir Hd eq_refl Hw)).
  cbv beta. cbn [negb].
  rewrite (bind_ok _ _ _ _ _ (create_alias_spec _)). cbv beta.
  reflexivity.
Qed.

Lemma fresh_check_false (w : world) :
  check_env_credentials (alias_update (set_home
    (set_entry install_dir (mkdir (Some env_content) false [])
       (set_entry install_dir empty_dir (w_home w))) w)) = false.
Proof.
  unfold check_env_credentials, env_file. simpl. rewrite lookup_set_entry_eq. simpl.
  rewrite credentials_in_env_content. destruct (os_read_ok (w_os w)); reflexivity.
Qed.

(** With no [~/StitchKit], [run] asks neither the backup nor the restore
    question, whatever backups the home directory holds: it creates the
    directory, writes the template [.env], whose placeholders fail the
    credential check, and asks whether to configure now.  Declining leaves
    the template in place, shows the manual next steps and exits with 0.
    No other directory of the home directory changes, and the shell startup
    files are what one call of [create_alias] makes of them. *)
Theorem run_fresh_home_decline (w : world) (r : string) (rest : list response) :
  lookup install_dir (w_home w) = None ->
  version_below (os_version (w_os w)) = false -> os_write_ok (w_os w) = true ->
  w_env_has_credentials w = false ->
  w_inputs w = Line r :: rest -> String.eqb (lower r) "y" = false ->
  fst (run w) = Ok true /\ main_exit_code w = 0 /\
  w_trace (snd (run w)) = (w_trace w ++ [Prompt configure_prompt; ManualSteps])%list /\
  env_file (snd (run w)) = Some env_content /\
  (forall n, n <> install_dir -> lookup n (w_home (snd (run w))) = lookup n (w_home w)) /\
  sh_files (w_shell (snd (run w))) =
    fst (Alias.create_alias (sh_var (w_shell w)) (sh_read_ok (w_shell w))
           (sh_append_ok (w_shell w)) (sh_files (w_shell w))).
Proof.
  intros Hn Hv Hw Hh Hi Hy.
  assert (Hr : run w = (Ok true, add_event ManualSteps (set_inputs rest
            (add_event (Prompt configure_prompt) (set_has_credentials false
              (alias_update (set_home
                (set_entry install_dir (mkdir (Some env_content) false [])
                   (set_entry install_dir empty_dir (w_home w))) w))))))).
  { rewrite (run_fresh_prefix w Hn Hv Hw).
    apply (final_steps_decline _ r rest); [exact Hh|apply fresh_check_false|exact Hi|exact Hy]. }
  unfold main_exit_code. rewrite Hr. cbn [fst snd].
  split; [reflexivity|]. split; [reflexivity|].
  split; [simpl; rewrite <- app_assoc; reflexivity|].
  split.
  - unfold env_file. simpl. rewrite lookup_set_entry_eq. reflexivity.
  - split; [|reflexivity]. intros n Hne. simpl.
    rewrite !lookup_set_entry_neq by congruence. reflexivity.
Qed.

Lemma run_fresh_home_decline_witness :
  let w := sample_world [("StitchKit.backup-20250101-000000", mkdir (Some filled_env) false [])]
                        [Line "yes"] in
  fst (run w) = Ok true /\ main_exit_code w = 0 /\
  w_trace (snd (run w)) = (w_trace w ++ [Prompt configure_prompt; ManualSteps])%list /\
  env_file (snd (run w)) = Some env_content /\
  (forall n, n <> install_dir -> lookup n (w_home (snd (run w))) = lookup n (w_home w)) /\
  sh_files (w_shell (snd (run w))) =
    fst (Alias.create_alias (sh_var (w_shell w)) (sh_read_ok (w_shell w))
           (sh_append_ok (w_shell w)) (sh_files (w_shell w))).
Proof.
  intros w. apply (run_fresh_home_decline w "yes" []); reflexivity.
Defined.

(** With no [~/StitchKit] and a template that cannot be written, the
    [OSError] of [create_basic_env] reaches [main]: the run stops before any
    question and the installer exits with 1. *)
Theorem run_fresh_home_unwritable (w : world) :
  lookup install_dir (w_home w) = None ->
  version_below (os_version (w_os w)) = false -> os_write_ok (w_os w) = false ->
  fst (run w) = Exc OSError /\ w_trace (snd (run w)) = w_trace w /\
  main_exit_code w = 1.
Proof.
  intros Hn Hv Hw.
  assert (Hi : install_exists w = false) by (unfold install_exists; rewrite Hn; reflexivity).
  set (w1 := set_home (set_entry install_dir empty_dir (w_home w)) w).
  assert (Hd : lookup install_dir (w_home w1) = Some empty_dir)
    by apply lookup_set_entry_eq.
  assert (Hs : setup_environment w1 = (Exc OSError, w1)).
  { unfold setup_environment. rewrite bind_get.
    assert (Hx : env_exists w1 = false)
      by (unfold env_exists, env_file; rewrite Hd; reflexivity).
    rewrite Hx, andb_false_r. cbn [negb]. unfold bind at 1.
    unfold create_basic_env, write_env. rewrite Hd.
    change (w_os w1) with (w_os w). rewrite Hw. reflexivity. }
  assert (Hr : run w = (Exc OSError, w1)).
  { unfold run.
    rewrite (bind_ok _ _ _ _ _ (check_python_version_ok w Hv)). cbv beta. cbn [negb].
    rewrite (bind_ok _ _ _ _ _ (check_existing_absent w Hi)). cbv beta.
    rewrite bind_get, Hi.
    rewrite (bind_ok _ _ _ _ _ (mkdir_install_absent w Hi)). cbv beta. fold w1.
    assert (Hdep : install_dependencies w1 = (Ok true, w1)).
    { unfold install_dependencies. rewrite bind_get, Hd. reflexivity. }
    rewrite (bind_ok _ _ _ _ _ Hdep). cbv beta.
    apply (bind_exc _ _ _ _ _ Hs). }
  unfold main_exit_code. rewrite Hr. repeat split.
Qed.

Lemma run_fresh_home_unwritable_witness :
  let w := mkworld [] [Line "y"] [] false false sample_shell
             (mkos (3, 12) "20260315-093000" true true false true true true true None true) in
  fst (run w) = Exc OSError /\ w_trace (snd (run w)) = w_trace w /\ main_exit_code w = 1.
Proof. intros w. apply run_fresh_home_unwritable; reflexivity. Defined.





(** Below Python 3.7, [run] returns [False] at once: no question, no change
    to the home directory or the terminal, and the installer exits with 1. *)
Theorem run_old_python_does_nothing (w : world) :
  version_below (os_version (w_os w)) = true ->
  run w = (Ok false, w) /\ main_exit_code w = 1.
Proof.
  intros H. pose proof (run_version_below w H) as Hr.
  split; [exact Hr|]. unfold main_exit_code. rewrite Hr. reflexivity.
Qed.

Lemma run_old_python_does_nothing_witness :
  let w := mkworld [installed (Some filled_env)] [Line "y"] [] false false sample_shell
             (mkos (3, 6) "20260315-093000" true true true true true true true None true) in
  run w = (Ok false, w) /\ main_exit_code w = 1.
Proof. intros w. apply run_old_python_does_nothing. reflexivity. Defined.

(** ** Triples over the monad

    [triple P m Q E]: from a world satisfying [P], [m] returning [a] ends in
    a world satisfying [Q a], and [m] raising ends in one satisfying [E]. *)

Definition triple {A} (P : world -> Prop) (m : M A) (Q : A -> world -> Prop)
    (E : world -> Prop) : Prop :=
  forall w, P w ->
  match m w with
  | (Ok a, w') => Q a w'
  | (Exc _, w') => E w'
  end.

Lemma triple_bind {A B} (P : world -> Prop) (m : M A) (Q : A -> world -> Prop)
    (k : A -> M B) (R : B -> world -> Prop) (E : world -> Prop) :
  triple P m Q E -> (forall a, triple (Q a) (k a) R E) -> triple P (bind m k) R E.
Proof.
  intros Hm Hk w HP. specialize (Hm w HP). unfold bind.
  destruct (m w) as [[a|e] w']; [apply Hk; exact Hm|exact Hm].
Qed.

Lemma triple_get (P : world -> Prop) (E : world -> Prop) :
  triple P get (fun a w => P w /\ a = w) E.
Proof. intros w HP. simpl. auto. Qed.

Lemma triple_ret {A} (P : world -> Prop) (a : A) (Q : A -> world -> Prop) E :
  (forall w, P w -> Q a w) -> triple P (ret a) Q E.
Proof. intros H w HP. simpl. auto. Qed.

Lemma triple_modify (P : world -> Prop) (f : world -> world) Q E :
  (forall w, P w -> Q tt (f w)) -> triple P (modify f) Q E.
Proof. intros H w HP. simpl. auto. Qed.

Lemma triple_conseq {A} (P P' : world -> Prop) (m : M A) (Q Q' : A -> world -> Prop)
    (E E' : world -> Prop) :
  triple P m Q E -> (forall w, P' w -> P w) -> (forall a w, Q a w -> Q' a w) ->
  (forall w, E w -> E' w) -> triple P' m Q' E'.
Proof.
  intros Hm HP HQ HE w H'. specialize (Hm w (HP w H')).
  destruct (m w) as [[a|e] w']; auto.
Qed.

Lemma triple_try {A} (P : world -> Prop) (m h : M A) Q (E1 E : world -> Prop) :
  triple P m Q E1 -> triple E1 h Q E -> (forall w, E1 w -> E w) ->
  triple P (try_except m h) Q E.
Proof.
  intros Hm Hh HE w HP. specialize (Hm w HP). unfold try_except.
  destruct (m w) as [[a|e] w']; [exact Hm|].
  destruct (is_Exception e); [apply Hh; exact Hm|apply HE; exact Hm].
Qed.

Lemma triple_input (p : string) (P : world -> Prop) (Q : string -> world -> Prop) E :
  (forall w i s, P w -> Q s (set_inputs i (add_event (Prompt p) w))) ->
  (forall w i, P w -> E (set_inputs i (add_event (Prompt p) w))) ->
  (forall w, P w -> E (add_event (Prompt p) w)) ->
  triple P (input p) Q E.
Proof.
  intros HQ HE HE0 w HP. unfold input. simpl.
  destruct (w_inputs w) as [|[s|] r]; simpl; auto.
Qed.

(** An invariant: kept on every path, raising or not. *)
Definition keeps (I : world -> Prop) {A} (m : M A) : Prop := triple I m (fun _ => I) I.

Lemma keeps_bind {A B} (I : world -> Prop) (m : M A) (k : A -> M B) :
  keeps I m -> (forall a, keeps I (k a)) -> keeps I (bind m k).
Proof. intros Hm Hk. eapply triple_bind; [exact Hm|exact Hk]. Qed.

Lemma keeps_bind_get {B} (I : world -> Prop) (k : world -> M B) :
  (forall w0, I w0 -> keeps I (k w0)) -> keeps I (bind get k).
Proof. intros Hk w HI. rewrite bind_get. apply (Hk w HI w HI). Qed.

Lemma keeps_ret {A} (I : world -> Prop) (a : A) : keeps I (ret a).
Proof. apply triple_ret. auto. Qed.

Lemma keeps_if {A} (I : world -> Prop) (b : bool) (m1 m2 : M A) :
  keeps I m1 -> keeps I m2 -> keeps I (if b then m1 else m2).
Proof. destruct b; auto. Qed.

Lemma keeps_try {A} (I : world -> Prop) (m h : M A) :
  keeps I m -> keeps I h -> keeps I (try_except m h).
Proof. intros Hm Hh. eapply triple_try; [exact Hm|exact Hh|auto]. Qed.

(** ** What [run] touches in the home directory *)













(** ** What [run] does to the shell startup files *)










(** ** When [run] starts main.py *)

Definition no_launch (w : world) : Prop := ~ In Launched (w_trace w).

(** [self.env_has_credentials] is never stale: set, it agrees with a fresh
    check of [.env]. *)
Definition creds_sound (w : world) : Prop :=
  w_env_has_credentials w = true -> check_env_credentials w = true.

(** A fresh installer: [env_has_credentials] is [False] (as [__init__]
    sets it), and main.py has not been started. *)
Definition fresh (w : world) : Prop := w_env_has_credentials w = false /\ no_launch w.

Definition sound (w : world) : Prop := creds_sound w /\ no_launch w.

Definition launch_safe (w : world) : Prop :=
  creds_sound w /\ (In Launched (w_trace w) -> check_env_credentials w = true).

Lemma no_launch_add (e : event) (w : world) :
  e <> Launched -> no_launch w -> no_launch (add_event e w).
Proof.
  intros He Hw Hin. unfold no_launch in *. simpl in Hin.
  apply in_app_or in Hin as [Hin|[Hin|[]]]; [contradiction|congruence].
Qed.

Lemma fresh_sound (w : world) : fresh w -> sound w.
Proof. intros [Hf Hn]. split; [intros Ht; congruence|exact Hn]. Qed.

Lemma sound_safe (w : world) : sound w -> launch_safe w.
Proof. intros [Hs Hn]. split; [exact Hs|intros Hin; contradiction]. Qed.

Lemma fresh_safe (w : world) : fresh w -> launch_safe w.
Proof. intros H. apply sound_safe, fresh_sound, H. Qed.

(** A computation that changes the home directory at most. *)
Definition home_only {A} (m : M A) : Prop :=
  forall w, snd (m w) = w \/ exists h, snd (m w) = set_home h w.

Lemma keeps_fresh_home_only {A} (m : M A) : home_only m -> keeps fresh m.
Proof.
  intros Hm w Hw. destruct (Hm w) as [H|[h H]];
    destruct (m w) as [[a|e] w']; simpl in H; subst; exact Hw.
Qed.

Ltac home_only_tac :=
  intros ?w; unfold shutil_move, mkdir_install, copy_env, write_env, run_editor;
  repeat match goal with
         | |- context [match ?x with _ => _ end] => destruct x
         | |- context [if ?x then _ else _] => destruct x
         end;
  solve [left; reflexivity | right; eexists; reflexivity].

Lemma home_only_shutil_move (src dst : string) : home_only (shutil_move src dst).
Proof. home_only_tac. Qed.

Lemma home_only_mkdir_install : home_only mkdir_install.
Proof. home_only_tac. Qed.

Lemma home_only_copy_env (b : string) : home_only (copy_env b).
Proof. home_only_tac. Qed.

Lemma home_only_write_env (c : string) : home_only (write_env c).
Proof. home_only_tac. Qed.

Lemma home_only_run_editor : home_only run_editor.
Proof. home_only_tac. Qed.

Lemma keeps_fresh_input (p : string) : keeps fresh (input p).
Proof.
  apply triple_input; [intros w i s [Hf Hn]|intros w i [Hf Hn]|intros w [Hf Hn]];
    (split; [exact Hf|apply no_launch_add; [discriminate|exact Hn]]).
Qed.

Lemma keeps_sound_input (p : string) : keeps sound (input p).
Proof.
  apply triple_input; [intros w i s [Hf Hn]|intros w i [Hf Hn]|intros w [Hf Hn]];
    (split; [exact Hf|apply no_launch_add; [discriminate|exact Hn]]).
Qed.

Lemma keeps_fresh_backup_existing : keeps fresh backup_existing.
Proof.
  unfold backup_existing. apply keeps_bind_get; intros w0 _.
  apply keeps_try; [|apply keeps_ret].
  apply keeps_bind; [|intros _; apply keeps_ret].
  apply keeps_fresh_home_only, home_only_shutil_move.
Qed.

Lemma fresh_step {A} (P : world -> Prop) (m : M A) :
  keeps fresh m -> (forall w, P w -> fresh w) ->
  triple P m (fun _ => fresh) launch_safe.
Proof. intros Hm HP. eapply triple_conseq; [exact Hm|exact HP|auto|apply fresh_safe]. Qed.

(** The restore sets the flag from a fresh check of the copied file. *)
Lemma restore_sound :
  triple fresh restore_env_from_backup (fun _ => sound) launch_safe.
Proof.
  unfold restore_env_from_backup.
  eapply triple_bind; [apply triple_get|intros w0].
  assert (Hret : forall b : bool, triple (fun w => fresh w /\ w0 = w) (ret b)
                   (fun _ => sound) launch_safe).
  { intros b. apply triple_ret. intros w [Hw _]. apply fresh_sound, Hw. }
  destruct (latest_backup (w_home w0)) as [b|]; [|apply Hret].
  destruct (option_map d_env (lookup b (w_home w0))) as [[c|]|]; try apply Hret.
  eapply triple_bind;
    [apply fresh_step; [apply keeps_fresh_input|intros w [Hw _]; exact Hw]|].
  intros r. destruct (String.eqb (lower r) "y");
    [|apply triple_ret; intros w Hw; apply fresh_sound, Hw].
  eapply triple_bind;
    [apply fresh_step; [apply keeps_fresh_home_only, home_only_mkdir_install|auto]|intro; cbv beta].
  eapply triple_bind;
    [apply fresh_step; [apply keeps_fresh_home_only, home_only_copy_env|auto]|intro; cbv beta].
  eapply triple_bind with (Q := fun _ => fresh);
    [apply triple_modify; intros w Hw; exact Hw|intro; cbv beta].
  eapply triple_bind; [apply triple_get|intros w1].
  eapply triple_bind with (Q := fun _ => sound).
  { apply triple_modify. intros w [[_ Hn] <-]. split; [|exact Hn].
    intros Ht. exact Ht. }
  intro; cbv beta. apply triple_ret. auto.
Qed.

Lemma check_existing_sound :
  triple fresh check_existing_installation (fun _ => sound) launch_safe.
Proof.
  unfold check_existing_installation.
  eapply triple_bind; [apply triple_get|intros w0].
  destruct (install_exists w0);
    [|apply triple_ret; intros w [Hw _]; apply fresh_sound, Hw].
  eapply triple_bind;
    [apply fresh_step; [apply keeps_fresh_input|intros w [Hw _]; exact Hw]|].
  intros r. eapply triple_bind with (Q := fun _ => sound);
    [|intro; cbv beta; apply triple_ret; auto].
  destruct (String.eqb (lower r) "y");
    [|apply triple_ret; intros w Hw; apply fresh_sound, Hw].
  eapply triple_bind; [apply fresh_step; [apply keeps_fresh_backup_existing|auto]|].
  intros [bd|]; [|apply triple_ret; intros w Hw; apply fresh_sound, Hw].
  eapply triple_bind; [apply restore_sound|intro; cbv beta].
  apply triple_ret. auto.
Qed.

Lemma sound_step {A} (P : world -> Prop) (m : M A) :
  keeps sound m -> (forall w, P w -> sound w) ->
  triple P m (fun _ => sound) launch_safe.
Proof. intros Hm HP. eapply triple_conseq; [exact Hm|exact HP|auto|apply sound_safe]. Qed.

Lemma check_absent (w : world) : install_exists w = false -> check_env_credentials w = false.
Proof.
  unfold install_exists, check_env_credentials, env_file.
  destruct (lookup install_dir (w_home w)); [discriminate|reflexivity].
Qed.

Lemma keeps_sound_mkdir_install : keeps sound mkdir_install.
Proof.
  intros w [Hs Hn]. unfold mkdir_install.
  destruct (install_exists w) eqn:E; [split; assumption|].
  split; [|exact Hn]. intros Ht. exfalso.
  unfold creds_sound in Hs. rewrite check_absent in Hs by exact E. specialize (Hs Ht). discriminate.
Qed.

Lemma keeps_install_dependencies (I : world -> Prop) : keeps I install_dependencies.
Proof.
  intros w Hw. destruct (install_dependencies_pure w) as [b ->]. exact Hw.
Qed.

Lemma keeps_sound_setup_environment : keeps sound setup_environment.
Proof.
  intros w [Hs Hn]. unfold setup_environment. rewrite bind_get.
  destruct (w_env_restored w && env_exists w); [split; assumption|].
  destruct (env_exists w) eqn:E; [split; assumption|].
  cbn [negb]. unfold bind, create_basic_env, write_env.
  destruct (lookup install_dir (w_home w)) as [d|] eqn:Ed; [|split; assumption].
  destruct (os_write_ok (w_os w)); [|split; assumption].
  split; [|exact Hn]. intros Ht.
  assert (Hc : check_env_credentials w = false).
  { unfold check_env_credentials. unfold env_exists in E.
    destruct (env_file w); [discriminate|reflexivity]. }
  rewrite (Hs Ht) in Hc. discriminate.
Qed.

Lemma keeps_sound_create_alias : keeps sound create_alias.
Proof. intros w Hw. exact Hw. Qed.

Lemma launch_safe_launch :
  triple (fun w => sound w /\ w_env_has_credentials w = true) launch
    (fun _ => launch_safe) launch_safe.
Proof.
  intros w [[Hs Hn] Ht]. unfold launch. rewrite bind_get.
  destruct (os_launch_ok (w_os w)); simpl.
  - split; [exact Hs|intros _; apply Hs, Ht].
  - apply sound_safe. split; [exact Hs|].
    apply no_launch_add; [discriminate|]. apply no_launch_add; [discriminate|exact Hn].
Qed.

Lemma sound_show :
  triple sound show_manual_next_steps (fun _ => sound) launch_safe.
Proof.
  apply triple_modify. intros w [Hs Hn]. split; [exact Hs|].
  apply no_launch_add; [discriminate|exact Hn].
Qed.

Lemma guide_env_setup_sound :
  triple fresh guide_env_setup (fun _ => sound) launch_safe.
Proof.
  unfold guide_env_setup.
  eapply triple_bind; [apply fresh_step; [apply keeps_fresh_input|auto]|intro; cbv beta].
  eapply triple_bind; [apply triple_get|intros w0].
  destruct (os_nano (w_os w0) || os_vi (w_os w0));
    [|apply triple_ret; intros w [Hw _]; apply fresh_sound, Hw].
  eapply triple_bind;
    [apply fresh_step; [apply keeps_fresh_home_only, home_only_run_editor
                       |intros w [Hw _]; exact Hw]|intro; cbv beta].
  eapply triple_bind; [apply triple_get|intros w1].
  apply triple_modify. intros w [[_ Hn] <-]. split; [|exact Hn].
  intros Ht. exact Ht.
Qed.

Lemma final_steps_safe :
  triple sound final_steps (fun _ => launch_safe) launch_safe.
Proof.
  unfold final_steps.
  eapply triple_bind; [apply triple_get|intros w0].
  eapply triple_bind with (Q := fun _ => sound).
  { destruct (w_env_has_credentials w0).
    - apply triple_ret. intros w [Hw _]. exact Hw.
    - apply triple_modify. intros w [[_ Hn] <-]. split; [|exact Hn].
      intros Ht. exact Ht. }
  intro; cbv beta.
  eapply triple_bind; [apply triple_get|intros w1].
  destruct (w_env_has_credentials w1) eqn:Eh.
  - eapply triple_bind with (Q := fun _ => launch_safe).
    + eapply triple_conseq; [apply launch_safe_launch| |auto|auto].
      intros w [Hw <-]. split; assumption.
    + intro; cbv beta. apply triple_ret. auto.
  - assert (Hf : forall w, sound w /\ w1 = w -> fresh w).
    { intros w [[_ Hn] <-]. split; assumption. }
    eapply triple_bind; [apply fresh_step; [apply keeps_fresh_input|exact Hf]|].
    intros r. destruct (String.eqb (lower r) "y").
    + eapply triple_bind; [apply guide_env_setup_sound|intro; cbv beta].
      eapply triple_bind; [apply triple_get|intros w2].
      eapply triple_bind with (Q := fun _ => launch_safe);
        [|intro; cbv beta; apply triple_ret; auto].
      destruct (w_env_has_credentials w2) eqn:E2.
      * eapply triple_conseq; [apply launch_safe_launch| |auto|auto].
        intros w [Hw <-]. split; assumption.
      * eapply triple_conseq; [apply sound_show| |intros ?; apply sound_safe|auto].
        intros w [Hw _]. exact Hw.
    + eapply triple_bind with (Q := fun _ => launch_safe);
        [|intro; cbv beta; apply triple_ret; auto].
      eapply triple_conseq; [apply sound_show|apply fresh_sound|intros ?; apply sound_safe|auto].
Qed.

Lemma run_safe : triple fresh run (fun _ => launch_safe) launch_safe.
Proof.
  unfold run, check_python_version.
  eapply triple_bind with (Q := fun _ => fresh).
  { eapply triple_bind; [apply triple_get|intros w0].
    apply triple_ret. intros w [Hw _]. exact Hw. }
  intros ok. destruct (negb ok); [apply triple_ret; apply fresh_safe|].
  eapply triple_bind; [apply check_existing_sound|intro; cbv beta].
  eapply triple_bind; [apply triple_get|intros w0].
  eapply triple_bind with (Q := fun _ => sound).
  { destruct (install_exists w0).
    - apply triple_ret. intros w [Hw _]. exact Hw.
    - apply sound_step; [apply keeps_sound_mkdir_install|intros w [Hw _]; exact Hw]. }
  intro; cbv beta.
  eapply triple_bind;
    [apply sound_step; [apply keeps_install_dependencies|auto]|intro; cbv beta].
  eapply triple_bind;
    [apply sound_step; [apply keeps_sound_setup_environment|auto]|intros ok2].
  destruct (negb ok2); [apply triple_ret; apply sound_safe|].
  eapply triple_bind;
    [apply sound_step; [apply keeps_sound_create_alias|auto]|intro; cbv beta].
  apply final_steps_safe.
Qed.

(** Starting from a fresh installer ([env_has_credentials] [False], as
    [__init__] leaves it), [run] starts main.py only when the [.env] it
    leaves in [~/StitchKit] passes the credential check, on every path:
    credentials found at once, restored from a backup, or typed in the
    editor. *)
Theorem run_launches_only_with_credentials (w : world) :
  w_env_has_credentials w = false -> ~ In Launched (w_trace w) ->
  In Launched (w_trace (snd (run w))) ->
  check_env_credentials (snd (run w)) = true.
Proof.
  intros Hf Hn Hl. pose proof (run_safe w (conj Hf Hn)) as H.
  destruct (run w) as [[a|e] w'] eqn:E; destruct H as [_ H]; apply H, Hl.
Qed.

Lemma run_launches_only_with_credentials_witness :
  let w := sample_world [installed (Some filled_env)] [Line "n"] in
  check_env_credentials (snd (run w)) = true.
Proof.
  intros w. apply run_launches_only_with_credentials.
  - reflexivity.
  - simpl. tauto.
  - vm_compute. tauto.
Defined.

(** ** What a successful [run] leaves behind *)

Definition has_env (w : world) : Prop := env_exists w = true.

Lemma keeps_has_env_modify (f : world -> world) :
  (forall w, env_file (f w) = env_file w) -> keeps has_env (modify f).
Proof. intros Hf. apply triple_modify. intros w H. unfold has_env, env_exists. rewrite Hf. exact H. Qed.

Lemma keeps_has_env_input (p : string) : keeps has_env (input p).
Proof. apply triple_input; intros; assumption. Qed.

Lemma keeps_has_env_run_editor : keeps has_env run_editor.
Proof.
  intros w H. unfold run_editor.
  destruct (os_edit (w_os w)) as [c|]; [|exact H].
  destruct (lookup install_dir (w_home w)) as [d|]; [|exact H].
  unfold has_env, env_exists, env_file. simpl. rewrite lookup_set_entry_eq. reflexivity.
Qed.

Ltac keeps_has_env_tac :=
  repeat (cbv beta;
    match goal with
    | |- keeps _ (bind get _) => apply keeps_bind_get; intros ? ?
    | |- keeps _ (bind _ _) => apply keeps_bind; [|intros ?]
    | |- keeps _ (ret _) => apply keeps_ret
    | |- keeps _ (if _ then _ else _) => apply keeps_if
    | |- keeps _ (try_except _ _) => apply keeps_try
    | |- keeps _ (input _) => apply keeps_has_env_input
    | |- keeps _ (modify _) => apply keeps_has_env_modify; intros; reflexivity
    | |- keeps _ (emit _) => apply keeps_has_env_modify; intros; reflexivity
    | |- keeps _ run_editor => apply keeps_has_env_run_editor
    end).

Lemma keeps_has_env_final_steps : keeps has_env final_steps.
Proof.
  unfold final_steps, guide_env_setup, launch, show_manual_next_steps.
  keeps_has_env_tac.
Qed.

Lemma setup_environment_has_env :
  triple (fun _ => True) setup_environment (fun _ => has_env) (fun _ => True).
Proof.
  intros w _. unfold setup_environment. rewrite bind_get.
  destruct (w_env_restored w && env_exists w) eqn:E1.
  - apply andb_true_iff in E1 as [_ E1]. exact E1.
  - destruct (env_exists w) eqn:E; [exact E|]. cbn [negb].
    unfold bind, create_basic_env, write_env.
    destruct (lookup install_dir (w_home w)) as [d|]; [|exact I].
    destruct (os_write_ok (w_os w)); [|exact I].
    unfold has_env, env_exists, env_file. simpl. rewrite lookup_set_entry_eq. reflexivity.
Qed.

Lemma run_has_env :
  triple (fun _ => True) run (fun b w => b = true -> has_env w) (fun _ => True).
Proof.
  unfold run.
  eapply triple_bind with (Q := fun _ _ => True);
    [intros w _; destruct (check_python_version w) as [[]]; exact I|intros ok].
  destruct (negb ok); [apply triple_ret; discriminate|].
  eapply triple_bind with (Q := fun _ _ => True);
    [intros w _; destruct (check_existing_installation w) as [[]]; exact I|intro; cbv beta].
  eapply triple_bind; [apply triple_get|intros w0].
  eapply triple_bind with (Q := fun _ _ => True);
    [intros w _; destruct ((if install_exists w0 then ret tt else mkdir_install) w) as [[]];
     exact I|intro; cbv beta].
  eapply triple_bind with (Q := fun _ _ => True);
    [intros w _; destruct (install_dependencies w) as [[]]; exact I|intro; cbv beta].
  eapply triple_bind; [apply setup_environment_has_env|intros ok2].
  destruct (negb ok2); [apply triple_ret; discriminate|].
  eapply triple_conseq with (P := has_env) (Q := fun _ => has_env) (E := has_env);
    [|auto|auto|auto].
  apply keeps_bind; [intros w H; exact H|intros _; apply keeps_has_env_final_steps].
Qed.

(** When [run] returns [True], [~/StitchKit] exists and holds a [.env]:
    the one found, restored or written from the template (and maybe edited);
    a template that cannot be written makes [run] raise instead. *)
Theorem run_true_leaves_env (w : world) :
  fst (run w) = Ok true ->
  install_exists (snd (run w)) = true /\ env_exists (snd (run w)) = true.
Proof.
  intros Hr. pose proof (run_has_env w I) as H.
  destruct (run w) as [[a|e] w'] eqn:E; cbn [fst snd] in *; [|discriminate].
  injection Hr as ->. specialize (H eq_refl). unfold has_env in H.
  split; [|exact H].
  unfold env_exists, env_file, install_exists in *.
  destruct (lookup install_dir (w_home w')); [reflexivity|discriminate].
Qed.

Lemma run_true_leaves_env_witness :
  let w := sample_world [("StitchKit.backup-20250101-000000", mkdir (Some filled_env) false [])]
                        [Line "n"] in
  install_exists (snd (run w)) = true /\ env_exists (snd (run w)) = true.
Proof. intros w. apply run_true_leaves_env. vm_compute. reflexivity. Defined.

(** ** Configuring now *)

(** Answering "y" to "configure them now?": with neither nano nor vi the
    installer shows the manual steps and [.env] is as it was; with an editor,
    what the user saved becomes [.env], and main.py is started at once
    exactly when it passes the credential check (else the manual steps are
    shown). *)
Theorem final_steps_configure_now (w : world) (r e : string) (rest : list response) (d : dir) :
  w_env_has_credentials w = false -> check_env_credentials w = false ->
  w_inputs w = Line r :: Line e :: rest -> String.eqb (lower r) "y" = true ->
  lookup install_dir (w_home w) = Some d -> os_launch_ok (w_os w) = true ->
  (os_nano (w_os w) || os_vi (w_os w) = false ->
     w_trace (snd (final_steps w)) =
     (w_trace w ++ [Prompt configure_prompt; Prompt "Press Enter to open the editor...";
                    ManualSteps])%list /\
     env_file (snd (final_steps w)) = env_file w) /\
  (forall c, os_nano (w_os w) || os_vi (w_os w) = true -> os_edit (w_os w) = Some c ->
     w_trace (snd (final_steps w)) =
     (w_trace w ++ [Prompt configure_prompt; Prompt "Press Enter to open the editor...";
                    if os_read_ok (w_os w) && credentials_in c then Launched
                    else ManualSteps])%list /\
     env_file (snd (final_steps w)) = Some c).
Proof.
  intros Hh Hc Hi Hy Hd Hl.
  destruct w as [h i t rs hc al o]; simpl in *. subst.
  unfold final_steps, guide_env_setup, launch, show_manual_next_steps, run_editor,
    input, bind, get, ret, modify, emit.
  unfold check_env_credentials in *. simpl in *. rewrite Hc. simpl. rewrite Hy. simpl.
  split.
  - intros Hn. rewrite Hn. simpl. rewrite <- !app_assoc. split; reflexivity.
  - intros c Hn He. rewrite Hn. simpl. rewrite He, Hd. simpl.
    unfold env_file. simpl. rewrite !lookup_set_entry_eq. simpl.
    destruct (os_read_ok o); [destruct (credentials_in c)|]; simpl;
      rewrite ?Hl; simpl; rewrite ?lookup_set_entry_eq;
      rewrite <- ?app_assoc; split; reflexivity.
Qed.

Lemma final_steps_configure_now_witness :
  let w := mkworld [installed (Some env_content)] [Line "y"; Line EmptyString] [] false false sample_shell
             (mkos (3, 11) "20260315-093000" true true true true true true false
                   (Some filled_env) true) in
  w_trace (snd (final_steps w)) =
  (w_trace w ++ [Prompt configure_prompt; Prompt "Press Enter to open the editor...";
                 if os_read_ok (w_os w) && credentials_in filled_env then Launched
                 else ManualSteps])%list /\
  env_file (snd (final_steps w)) = Some filled_env.
Proof.
  intros w.
  assert (Hc : check_env_credentials w = false) by (vm_compute; reflexivity).
  exact (proj2 (final_steps_configure_now w "y" EmptyString []
                  (mkdir (Some env_content) false [])
                  eq_refl Hc eq_refl eq_refl eq_refl eq_refl)
           filled_env eq_refl eq_refl).
Defined.

(** ** A restore that cannot copy *)






(** ** Whether pip succeeds

    [run] discards what [install_dependencies] answers (a failed [pip] only
    prints a warning), so the outcome of [pip] changes nothing else. *)

Definition set_pip (b : bool) (w : world) : world :=
  let o := w_os w in
  mkworld (w_home w) (w_inputs w) (w_trace w) (w_env_restored w)
    (w_env_has_credentials w) (w_shell w)
    (mkos (os_version o) (os_clock o) (os_rename_ok o) (os_copy_ok o) (os_write_ok o)
       (os_read_ok o) b (os_nano o) (os_vi o) (os_edit o) (os_launch_ok o)).

Definition pip_blind {A} (m : M A) : Prop :=
  forall b w, m (set_pip b w) = (fst (m w), set_pip b (snd (m w))).

Lemma pip_blind_ret {A} (a : A) : pip_blind (ret a).
Proof. intros b w. reflexivity. Qed.

Lemma pip_blind_bind {A B} (m : M A) (k : A -> M B) :
  pip_blind m -> (forall a, pip_blind (k a)) -> pip_blind (bind m k).
Proof.
  intros Hm Hk b w. unfold bind. rewrite Hm.
  destruct (m w) as [[a|e] w']; cbn [fst snd]; [apply Hk|reflexivity].
Qed.

Lemma pip_blind_bind_get {B} (k : world -> M B) :
  (forall w0, pip_blind (k w0)) -> (forall b w0 w, k (set_pip b w0) w = k w0 w) ->
  pip_blind (bind get k).
Proof. intros Hk Hw b w. rewrite !bind_get, Hw. apply Hk. Qed.

Lemma pip_blind_if {A} (c : bool) (m1 m2 : M A) :
  pip_blind m1 -> pip_blind m2 -> pip_blind (if c then m1 else m2).
Proof. destruct c; auto. Qed.

Lemma pip_blind_try {A} (m h : M A) :
  pip_blind m -> pip_blind h -> pip_blind (try_except m h).
Proof.
  intros Hm Hh b w. unfold try_except. rewrite Hm.
  destruct (m w) as [[a|e] w']; cbn [fst snd]; [reflexivity|].
  destruct (is_Exception e); [apply Hh|reflexivity].
Qed.

Lemma pip_blind_modify (f : world -> world) :
  (forall b w, f (set_pip b w) = set_pip b (f w)) -> pip_blind (modify f).
Proof. intros Hf b w. unfold modify. cbn [fst snd]. rewrite Hf. reflexivity. Qed.

Lemma pip_blind_input (p : string) : pip_blind (input p).
Proof. intros b w. unfold input. simpl. destruct (w_inputs w) as [|[s|] r]; reflexivity. Qed.

Lemma pip_blind_shutil_move (src dst : string) : pip_blind (shutil_move src dst).
Proof.
  intros b w. unfold shutil_move. simpl.
  destruct (lookup src (w_home w)) as [s|]; [|reflexivity].
  destruct (lookup dst (w_home w)) as [dd|].
  - destruct (existsb (String.eqb src) (d_children dd)); [reflexivity|].
    destruct (os_rename_ok (w_os w)); reflexivity.
  - destruct (os_rename_ok (w_os w)); reflexivity.
Qed.

Lemma pip_blind_mkdir_install : pip_blind mkdir_install.
Proof. intros b w. unfold mkdir_install, install_exists. simpl. destruct (lookup install_dir (w_home w)); reflexivity. Qed.

Lemma pip_blind_copy_env (src : string) : pip_blind (copy_env src).
Proof.
  intros b w. unfold copy_env. simpl.
  destruct (lookup src (w_home w)) as [s|]; [|reflexivity].
  destruct (lookup install_dir (w_home w)) as [d|]; [|reflexivity].
  destruct (d_env s); [|reflexivity].
  destruct (os_copy_ok (w_os w)); reflexivity.
Qed.

Lemma pip_blind_write_env (c : string) : pip_blind (write_env c).
Proof.
  intros b w. unfold write_env. simpl.
  destruct (lookup install_dir (w_home w)) as [d|]; [|reflexivity].
  destruct (os_write_ok (w_os w)); reflexivity.
Qed.

Lemma pip_blind_run_editor : pip_blind run_editor.
Proof.
  intros b w. unfold run_editor. simpl.
  destruct (os_edit (w_os w)); [|reflexivity].
  destruct (lookup install_dir (w_home w)); reflexivity.
Qed.

Lemma pip_blind_bind_install_dependencies {B} (k : bool -> M B) :
  (forall a, pip_blind (k a)) -> (forall a a' w, k a w = k a' w) ->
  pip_blind (bind install_dependencies k).
Proof.
  intros Hk Hc b w. unfold bind.
  destruct (install_dependencies_pure (set_pip b w)) as [a1 ->].
  destruct (install_dependencies_pure w) as [a3 ->].
  rewrite (Hc a1 a3). apply Hk.
Qed.

Ltac pip_blind_tac :=
  repeat (cbv beta;
    match goal with
    | |- pip_blind (bind get _) =>
        apply pip_blind_bind_get; [intros ?|intros ? ? ?; reflexivity]
    | |- pip_blind (bind install_dependencies _) =>
        apply pip_blind_bind_install_dependencies; [intros ?|intros ? ? ?; reflexivity]
    | |- pip_blind (bind _ _) => apply pip_blind_bind; [|intros ?]
    | |- pip_blind (ret _) => apply pip_blind_ret
    | |- pip_blind (if _ then _ else _) => apply pip_blind_if
    | |- pip_blind (match ?x with _ => _ end) => destruct x
    | |- pip_blind (try_except _ _) => apply pip_blind_try
    | |- pip_blind (input _) => apply pip_blind_input
    | |- pip_blind (modify _) => apply pip_blind_modify; intros ? ?; reflexivity
    | |- pip_blind (emit _) => apply pip_blind_modify; intros ? ?; reflexivity
    | |- pip_blind (shutil_move _ _) => apply pip_blind_shutil_move
    | |- pip_blind mkdir_install => apply pip_blind_mkdir_install
    | |- pip_blind (copy_env _) => apply pip_blind_copy_env
    | |- pip_blind (write_env _) => apply pip_blind_write_env
    | |- pip_blind create_basic_env => apply pip_blind_write_env
    | |- pip_blind run_editor => apply pip_blind_run_editor
    end).

Lemma pip_blind_run : pip_blind run.
Proof.
  unfold run, check_python_version, check_existing_installation, backup_existing,
    restore_env_from_backup, setup_environment, create_alias,
    final_steps, guide_env_setup, launch, show_manual_next_steps.
  pip_blind_tac.
Qed.

(** Two runs that differ only in whether [pip install -r requirements.txt]
    succeeds return the same result, end in the same world (home directory,
    terminal, flags) and exit with the same code. *)
Theorem run_ignores_pip (w : world) (b : bool) :
  fst (run (set_pip b w)) = fst (run w) /\
  snd (run (set_pip b w)) = set_pip b (snd (run w)) /\
  main_exit_code (set_pip b w) = main_exit_code w.
Proof.
  pose proof (pip_blind_run b w) as H.
  unfold main_exit_code. rewrite H. cbn [fst snd]. auto.
Qed.

(** ** The first question of a run

    The terminal trace only grows: every step of [run] keeps it starting
    with whatever it started with. *)








